(** * A model of [problem1/arxiv_server.py]

    The paper API of the repository: the document store built at import
    time, the tokenizer, the abstract analyser, the term counter behind
    [/search], the aggregate of [/stats] and the request handler.

    Conventions of the model.
    - A Python [str] is a [string]; its characters are read as the code
      points U+0000 to U+00FF, which is what the tables for [str.lower],
      [str.isspace] and the regex class [\w] below cover.
    - A value decoded by [json.load] is a [pyval]; numbers are the
      integers (the service never computes with a number of the corpus).
    - A raised exception is the [Raise] case of [result]; what the handler
      does not catch ends the computation.
    - The three regular expressions of the module are run by the scanner
      of [Re], which follows [re]'s search loop: try the pattern at the
      current position, on a match emit it and resume behind it, otherwise
      move one character on.
    - A response is its status and the object handed to [send_json]; the
      headers and the log line are left out.
    - [urlparse], [parse_qs] and [unquote] are parameters of the handler
      (class [Library]); [http.server] enters the model only through its
      dispatch on the request method. *)

From Stdlib Require Import Ascii.
From stdpp Require Import base gmap strings list sorting pretty.

Set Warnings "-register-all".

(** ** Characters *)

Module Chr.

Definition code (c : ascii) : N := N_of_ascii c.

Definition between (lo hi : N) (c : ascii) : bool :=
  ((lo <=? code c) && (code c <=? hi))%N.

Definition is_upper (c : ascii) : bool := between 65 90 c.
Definition is_lower (c : ascii) : bool := between 97 122 c.
Definition is_digit (c : ascii) : bool := between 48 57 c.

(** The class [[A-Za-z]] of [WORD_RE]. *)
Definition is_letter (c : ascii) : bool := is_upper c || is_lower c.

(** The class [[.!?]] of the sentence splitter. *)
Definition is_terminator (c : ascii) : bool :=
  bool_decide (c = "."%char) || bool_decide (c = "!"%char)
  || bool_decide (c = "?"%char).

(** [str.lower] on one character: A-Z, and the capital letters
    U+00C0 to U+00DE save the multiplication sign U+00D7. *)
Definition lower (c : ascii) : ascii :=
  if is_upper c || (between 192 222 c && negb (code c =? 215)%N)
  then ascii_of_N (code c + 32) else c.

(** [str.isalnum] on one character: letters, digits and the numeric
    characters of the range (superscripts and fractions). *)
Definition is_alnum (c : ascii) : bool :=
  is_digit c || is_letter c
  || (code c =? 170)%N || (code c =? 178)%N || (code c =? 179)%N
  || (code c =? 181)%N || (code c =? 185)%N || (code c =? 186)%N
  || between 188 190 c || between 192 214 c || between 216 246 c
  || between 248 255 c.

(** The class [\w] of a [str] pattern. *)
Definition is_word (c : ascii) : bool :=
  is_alnum c || bool_decide (c = "_"%char).

(** [str.isspace] on one character. *)
Definition is_space (c : ascii) : bool :=
  between 9 13 c || between 28 32 c
  || (code c =? 133)%N || (code c =? 160)%N.

(** Two characters a literal matches under [re.IGNORECASE]. *)
Definition eq_ci (a b : ascii) : bool := bool_decide (lower a = lower b).

End Chr.

(** ** Strings *)

Module Str.

Definition chars : string → list ascii := String.list_ascii_of_string.
Definition of_chars : list ascii → string := String.string_of_list_ascii.

(** [s.lower()] *)
Definition lower (s : string) : string := of_chars (Chr.lower <$> chars s).

Fixpoint lstrip (l : list ascii) : list ascii :=
  match l with
  | c :: l' => if Chr.is_space c then lstrip l' else l
  | [] => []
  end.

Definition rstrip (l : list ascii) : list ascii := reverse (lstrip (reverse l)).

(** [s.strip()] *)
Definition strip (s : string) : string := of_chars (rstrip (lstrip (chars s))).

(** The test [if s.strip()] *)
Definition is_blank (s : string) : bool := bool_decide (strip s = "").

End Str.

(** ** The regular expressions *)

Module Re.

Section Class.
Variable cls : ascii → bool.

(** The greedy match of [[cls]+] at the start of [l]; [[]] when the
    pattern does not match there. *)
Fixpoint run (l : list ascii) : list ascii :=
  match l with
  | c :: l' => if cls c then c :: run l' else []
  | [] => []
  end.

(** [findall] for [[cls]+]: [skip] characters of the last match are
    still to be passed over. *)
Fixpoint findall_go (skip : nat) (l : list ascii) : list (list ascii) :=
  match l with
  | [] => []
  | c :: l' =>
      match skip with
      | S k => findall_go k l'
      | O =>
          match run (c :: l') with
          | [] => findall_go 0 l'
          | m => m :: findall_go (length m - 1) l'
          end
      end
  end.

(** [split] for [[cls]+]: [cur] is the segment being read. *)
Fixpoint split_go (skip : nat) (cur : list ascii) (l : list ascii)
  : list (list ascii) :=
  match l with
  | [] => [cur]
  | c :: l' =>
      match skip with
      | S k => split_go k cur l'
      | O =>
          match run (c :: l') with
          | [] => split_go 0 (cur ++ [c]) l'
          | m => cur :: split_go (length m - 1) [] l'
          end
      end
  end.
End Class.

Definition findall_class (cls : ascii → bool) (s : string) : list string :=
  Str.of_chars <$> findall_go cls 0 (Str.chars s).

Definition split_class (cls : ascii → bool) (s : string) : list string :=
  Str.of_chars <$> split_go cls 0 [] (Str.chars s).

(** [\b] between the characters [p] and [n]; a side beyond the end of
    the text counts as a non-word character. *)
Definition is_boundary (p n : option ascii) : bool :=
  xorb (from_option Chr.is_word false p) (from_option Chr.is_word false n).

(** The literal [t], case-insensitively, at the start of [l]. *)
Fixpoint lit_prefix (t l : list ascii) : bool :=
  match t, l with
  | [], _ => true
  | a :: t', b :: l' => Chr.eq_ci a b && lit_prefix t' l'
  | _ :: _, [] => false
  end.

(** The pattern [\b t \b] (with [t] escaped, under IGNORECASE) at the
    start of [l], the character before being [p]. *)
Definition word_at (t : list ascii) (p : option ascii) (l : list ascii)
  : option (list ascii) :=
  let m := take (length t) l in
  let after := drop (length t) l in
  if is_boundary p (head l) && lit_prefix t l
     && is_boundary (if m is [] then p else last m) (head after)
  then Some m else None.

(** [findall] for [\b t \b]; the end of the text is a position too. *)
Fixpoint word_findall_go (t : list ascii) (skip : nat) (p : option ascii)
    (l : list ascii) : list (list ascii) :=
  match l with
  | [] =>
      match skip, word_at t p [] with
      | O, Some m => [m]
      | _, _ => []
      end
  | c :: l' =>
      match skip with
      | S k => word_findall_go t k (Some c) l'
      | O =>
          match word_at t p (c :: l') with
          | Some m => m :: word_findall_go t (length m - 1) (Some c) l'
          | None => word_findall_go t 0 (Some c) l'
          end
      end
  end.

Definition word_findall (t s : string) : list string :=
  Str.of_chars <$> word_findall_go (Str.chars t) 0 None (Str.chars s).

End Re.

(** ** Python values and exceptions *)

Inductive pyval :=
| PNone
| PBool (b : bool)
| PInt (n : Z)
| PStr (s : string)
| PList (l : list pyval)
| PDict (d : gmap string pyval).

(** A length or a counter as a Python [int]. *)
Definition PNat (n : nat) : pyval := PInt (Z.of_nat n).

Inductive exn := AttributeError | TypeError | IndexError | JSONDecodeError.

Inductive result (A : Type) :=
| Ok (a : A)
| Raise (e : exn).
Arguments Ok {A} a.
Arguments Raise {A} e.

#[global] Instance result_ret : MRet result := λ A a, Ok a.
#[global] Instance result_bind : MBind result := λ A B f m,
  match m with
  | Ok a => f a
  | Raise e => Raise e
  end.

(** A [for] loop with an accumulator whose body may raise. *)
Fixpoint for_each {A S : Type} (body : S → A → result S) (l : list A) (s : S)
  : result S :=
  match l with
  | [] => Ok s
  | x :: l' => s' ← body s x; for_each body l' s'
  end.

Module Py.

(** [bool(v)] *)
Definition truthy (v : pyval) : bool :=
  match v with
  | PNone => false
  | PBool b => b
  | PInt n => negb (n =? 0)%Z
  | PStr s => negb (bool_decide (s = ""))
  | PList l => negb (bool_decide (length l = 0))
  | PDict d => negb (bool_decide (size d = 0))
  end.

(** [a or b] *)
Definition or (a b : pyval) : pyval := if truthy a then a else b.

(** [d.get(k)] and [d.get(k, dflt)] *)
Definition get (d : gmap string pyval) (k : string) : pyval :=
  default PNone (d !! k).
Definition get_or (d : gmap string pyval) (k : string) (dflt : pyval) : pyval :=
  default dflt (d !! k).

(** The items a [for] statement draws from [v]. *)
Definition iter (v : pyval) : result (list pyval) :=
  match v with
  | PList l => Ok l
  | PStr s => Ok ((λ c, PStr (String c "")) <$> Str.chars s)
  | PDict d => Ok ((λ kv, PStr kv.1) <$> map_to_list d)
  | PNone | PBool _ | PInt _ => Raise TypeError
  end.

(** Whether [v] can be a dictionary key. *)
Definition hashable (v : pyval) : bool :=
  match v with
  | PList _ | PDict _ => false
  | _ => true
  end.

(** Equality of dictionary keys: [True] and [1] are one key. *)
Definition key_eq (a b : pyval) : bool :=
  match a, b with
  | PNone, PNone => true
  | PStr s, PStr s' => bool_decide (s = s')
  | PInt n, PInt n' => (n =? n')%Z
  | PBool c, PBool c' => bool_decide (c = c')
  | PBool c, PInt n | PInt n, PBool c => (n =? (if c then 1 else 0))%Z
  | _, _ => false
  end.

(** [s.strip(c)] for a one-character argument. *)
Fixpoint lstrip_char (c : ascii) (l : list ascii) : list ascii :=
  match l with
  | x :: l' => if bool_decide (x = c) then lstrip_char c l' else l
  | [] => []
  end.

Definition strip_char (c : ascii) (l : list ascii) : list ascii :=
  reverse (lstrip_char c (reverse (lstrip_char c l))).

(** [s.split(c)] for a one-character separator: every occurrence of the
    separator ends a piece, so the pieces are one more than the
    separators. *)
Fixpoint split_char (c : ascii) (cur : list ascii) (l : list ascii)
  : list (list ascii) :=
  match l with
  | [] => [cur]
  | x :: l' =>
      if bool_decide (x = c) then cur :: split_char c [] l'
      else split_char c (cur ++ [x]) l'
  end.

End Py.

(** ** The module's functions *)

Abbreviation paper := (gmap string pyval).

(** [WORD_RE = re.compile(r"[A-Za-z]+")] *)
Definition WORD_RE_findall (s : string) : list string :=
  Re.findall_class Chr.is_letter s.

(** [tokenize(txt)]: [WORD_RE.findall((txt or "").lower())]; a value that
    is true and not a string has no [lower]. *)
Definition tokenize (txt : pyval) : result (list string) :=
  match Py.or txt (PStr "") with
  | PStr s => Ok (WORD_RE_findall (Str.lower s))
  | _ => Raise AttributeError
  end.

(** [[s for s in re.split(r"[.!?]+", text) if s.strip()]] *)
Definition sentences (text : string) : list string :=
  filter (λ s, Str.is_blank s = false) (Re.split_class Chr.is_terminator text).

(** [p.get("abstract", "") or ""] *)
Definition abstract_text (p : paper) : pyval :=
  Py.or (Py.get_or p "abstract" (PStr "")) (PStr "").

(** [abstract_stats(p)] *)
Definition abstract_stats (p : paper) : result paper :=
  let text := abstract_text p in
  words ← tokenize text;
  sents ← match text with
          | PStr s => Ok (sentences s)
          | _ => Raise TypeError
          end;
  Ok (<["total_words" := PNat (length words)]>
      (<["unique_words" := PNat (size (list_to_set words : gset string))]>
      (<["total_sentences" := PNat (length sents)]> ∅))).

(** [len(pat.findall(v))] for [pat] the whole-word pattern of the term. *)
Definition count_in (t : string) (v : pyval) : result nat :=
  match v with
  | PStr s => Ok (length (Re.word_findall t s))
  | _ => Raise TypeError
  end.

(** The state of the loop of [count_terms]. *)
Record counting := Counting {
  total : nat;
  in_title : bool;
  in_abs : bool;
}.

(** One round of [for t in terms]. *)
Definition count_terms_body (haystack : paper) (st : counting) (t : string)
  : result counting :=
  st ← match haystack !! "title" with
       | Some v =>
           c ← count_in t v;
           Ok (Counting (total st + c) (in_title st || bool_decide (0 < c))
                 (in_abs st))
       | None => Ok st
       end;
  match haystack !! "abstract" with
  | Some v =>
      c ← count_in t v;
      Ok (Counting (total st + c) (in_title st)
            (in_abs st || bool_decide (0 < c)))
  | None => Ok st
  end.

(** [count_terms(haystack, terms)] *)
Definition count_terms (haystack : paper) (terms : list string)
  : result (nat * list string) :=
  st ← for_each (count_terms_body haystack) terms (Counting 0 false false);
  let where_ := (if in_title st then ["title"] else [])
                ++ (if in_abs st then ["abstract"] else []) in
  Ok (total st, where_).

(** ** The document store *)

(** What [open] and [json.load] find at [PAPERS_JSON]. *)
Inductive file :=
| Missing
| Unparseable
| Holds (v : pyval).

(** [load_json(path)]: only [FileNotFoundError] is caught. *)
Definition load_json (f : file) : result pyval :=
  match f with
  | Missing => Ok PNone
  | Unparseable => Raise JSONDecodeError
  | Holds v => Ok v
  end.

Record DataStore := MkDataStore {
  papers : list paper;
  by_id : gmap string paper;
}.

(** One round of [for p in self.papers]: [p.get] needs a dictionary.
    [papers] collects the items the loop has passed; when the loop ends
    without an exception they are the whole of [self.papers]. *)
Definition index_body (st : DataStore) (p : pyval) : result DataStore :=
  match p with
  | PDict d =>
      let aid := Py.or (Py.get d "arxiv_id") (Py.get d "id") in
      Ok (MkDataStore (papers st ++ [d])
            (match aid with
             | PStr a => <[a := d]> (by_id st)
             | _ => by_id st
             end))
  | _ => Raise AttributeError
  end.

(** [DataStore.__init__], run once when the module is loaded: an
    exception here ends the process before the server is created. *)
Definition DataStore_init (f : file) : result DataStore :=
  v ← load_json f;
  items ← Py.iter (Py.or v (PList []));
  for_each index_body items (MkDataStore [] ∅).

(** [DataStore.exists] *)
Definition exists_ (D : DataStore) : bool :=
  negb (bool_decide (length (papers D) = 0)).

(** ** The aggregate of [/stats] *)

(** The order of [sorted(freq.items(), key=lambda x: (-x[1], x[0]))]:
    tuples compare by the first component, then by the second. *)
Definition key_le (x y : string * nat) : Prop :=
  y.2 < x.2 ∨ (x.2 = y.2 ∧ String.le x.1 y.1).

#[global] Instance key_le_dec : RelDecision key_le.
Proof. intros x y. unfold key_le. apply _. Defined.

(** [freq[w] = freq.get(w, 0) + 1] *)
Definition bump_word (freq : gmap string nat) (w : string) : gmap string nat :=
  <[w := default 0 (freq !! w) + 1]> freq.

(** [cat[c] = cat.get(c, 0) + 1]: the counter keeps its keys in the order
    they were first seen. *)
Fixpoint bump_cat (c : pyval) (cat : list (pyval * nat)) : list (pyval * nat) :=
  match cat with
  | [] => [(c, 1)]
  | (k, n) :: cat' =>
      if Py.key_eq k c then (k, n + 1) :: cat' else (k, n) :: bump_cat c cat'
  end.

Definition cat_body (cat : list (pyval * nat)) (c : pyval)
  : result (list (pyval * nat)) :=
  if Py.hashable c then Ok (bump_cat c cat) else Raise TypeError.

(** The variables of the [/stats] loop. *)
Record tally := Tally {
  total_words : nat;
  uniq : gset string;
  freq : gmap string nat;
  cat : list (pyval * nat);
}.

(** One round of [for p in DATA.papers] under [/stats]. *)
Definition stats_body (st : tally) (p : paper) : result tally :=
  words ← tokenize (Py.get_or p "abstract" (PStr ""));
  cs ← Py.iter (Py.get_or p "categories" (PList []));
  cat' ← for_each cat_body cs (cat st);
  Ok (Tally (total_words st + length words)
        (uniq st ∪ list_to_set words)
        (foldl bump_word (freq st) words)
        cat').

(** [sorted(...)[:10]]. [sorted] is a stable sort; no two items of a
    dictionary have one key, so every sort returns the same list. *)
Definition top_10_of (freq : gmap string nat) : list (string * nat) :=
  take 10 (merge_sort key_le (map_to_list freq)).

(** The object [/stats] hands to [send_json]. *)
Record stats := Stats {
  stats_total_papers : nat;
  stats_total_words : nat;
  stats_unique_words : nat;
  top_10_words : list (string * nat);
  category_distribution : list (pyval * nat);
}.

(** The [/stats] branch of [do_GET] up to [send_json]. *)
Definition compute_stats (ps : list paper) : result stats :=
  st ← for_each stats_body ps (Tally 0 ∅ ∅ []);
  Ok (Stats (length ps) (total_words st) (size (uniq st))
        (top_10_of (freq st)) (cat st)).

(** ** The request handler *)

(** The result of [urlparse], as far as the handler reads it. *)
Record url := Url {
  path : string;
  query : string;
}.

(** The calls into [urllib.parse] and the text of an exception, which the
    module takes from the interpreter. *)
Class Library := {
  urlparse : string → url;
  parse_qs : string → gmap string (list string);
  unquote : string → string;
  str_exn : exn → string;
}.

Inductive body :=
| Json (v : pyval)
| StatsJson (s : stats)
| ErrorPage.

Record response := Response {
  status : Z;
  content : body;
}.

(** [send_json(h, obj, status)]; the log line it prints is not part of
    the response. *)
Definition send_json (obj : body) (status : Z) : response :=
  Response status obj.

Definition error_obj (msg : string) : gmap string pyval :=
  {["error" := PStr msg]}.

(** The [arxiv_id] every endpoint reports. *)
Definition shown_id (p : paper) : pyval :=
  Py.or (Py.get p "arxiv_id") (Py.get_or p "id" (PStr "")).

Definition listing_row (p : paper) : pyval :=
  PDict (<["arxiv_id" := shown_id p]>
        (<["title" := Py.get_or p "title" (PStr "")]>
        (<["authors" := Py.get_or p "authors" (PList [])]>
        (<["categories" := Py.get_or p "categories" (PList [])]> ∅)))).

Definition detail (p : paper) : result pyval :=
  st ← abstract_stats p;
  Ok (PDict (<["arxiv_id" := shown_id p]>
            (<["title" := Py.get_or p "title" (PStr "")]>
            (<["authors" := Py.get_or p "authors" (PList [])]>
            (<["abstract" := Py.get_or p "abstract" (PStr "")]>
            (<["categories" := Py.get_or p "categories" (PList [])]>
            (<["published" := Py.or (Py.or (Py.get p "published")
                                           (Py.get p "updated")) (PStr "")]>
            (<["abstract_stats" := PDict st]> ∅)))))))).

Definition search_hit (p : paper) (score : nat) (where_ : list string) : pyval :=
  PDict (<["arxiv_id" := shown_id p]>
        (<["title" := Py.get_or p "title" (PStr "")]>
        (<["match_score" := PNat score]>
        (<["matches_in" := PList (PStr <$> where_)]> ∅)))).

(** One round of [for p in DATA.papers] under [/search]. *)
Definition search_body (terms : list string) (results : list pyval) (p : paper)
  : result (list pyval) :=
  let hay : paper := <["title" := Py.get_or p "title" (PStr "")]>
                     (<["abstract" := Py.get_or p "abstract" (PStr "")]> ∅) in
  '(score, where_) ← count_terms hay terms;
  Ok (if bool_decide (0 < score) then results ++ [search_hit p score where_]
      else results).

(** The loop of [/search] over the corpus. *)
Definition search (terms : list string) (ps : list paper) : result (list pyval) :=
  for_each (search_body terms) ps [].

Section Handler.
Context `{Library}.

(** [[unquote(x) for x in path.strip("/").split("/") if x]] *)
Definition path_parts (path : string) : list string :=
  unquote <$>
    filter (λ x, x ≠ "")
      (Str.of_chars <$>
         Py.split_char "/" [] (Py.strip_char "/" (Str.chars path))).

(** [(parse_qs(parsed.query).get("q", [""])[0] or "").strip()] *)
Definition query_q (query : string) : result string :=
  match default [""] (parse_qs query !! "q") with
  | v :: _ => Ok (Str.strip (if bool_decide (v = "") then "" else v))
  | [] => Raise IndexError
  end.

(** The body of the [try] of [do_GET]. *)
Definition route (D : DataStore) (target : string) : result response :=
  if negb (exists_ D) then
    Ok (send_json (Json (PDict (error_obj "papers.json not found or empty"))) 500)
  else
  let parsed := urlparse target in
  let parts := path_parts (path parsed) in
  if bool_decide (path parsed = "/papers") && bool_decide (length parts = 1) then
    Ok (send_json (Json (PList (listing_row <$> papers D))) 200)
  else if bool_decide (length parts = 2) && bool_decide (parts !! 0 = Some "papers") then
    let aid := default "" (parts !! 1) in
    match by_id D !! aid with
    | Some p =>
        if Py.truthy (PDict p) then
          out ← detail p; Ok (send_json (Json out) 200)
        else
          Ok (send_json (Json (PDict (<["arxiv_id" := PStr aid]>
                                       (error_obj "unknown paper id")))) 404)
    | None =>
        Ok (send_json (Json (PDict (<["arxiv_id" := PStr aid]>
                                     (error_obj "unknown paper id")))) 404)
    end
  else if bool_decide (path parsed = "/search") && bool_decide (length parts = 1) then
    q ← query_q (query parsed);
    if bool_decide (q = "") then
      Ok (send_json (Json (PDict (error_obj "missing query parameter 'q'"))) 400)
    else
      terms ← tokenize (PStr q);
      if bool_decide (terms = []) then
        Ok (send_json (Json (PDict (error_obj "malformed query"))) 400)
      else
        results ← search terms (papers D);
        Ok (send_json (Json (PDict (<["query" := PStr q]>
                                     (<["results" := PList results]> ∅)))) 200)
  else if bool_decide (path parsed = "/stats") && bool_decide (length parts = 1) then
    out ← compute_stats (papers D);
    Ok (send_json (StatsJson out) 200)
  else
    Ok (send_json (Json (PDict (error_obj "endpoint not found"))) 404).

(** [Handler.do_GET]: whatever the body raises is answered with a 500. *)
Definition do_GET (D : DataStore) (target : string) : response :=
  match route D target with
  | Ok r => r
  | Raise e =>
      send_json (Json (PDict (<["detail" := PStr (str_exn e)]>
                               (error_obj "internal server error")))) 500
  end.

(** A request as [BaseHTTPRequestHandler] hands it over: [self.command]
    and [self.path]. *)
Record request := Request {
  command : string;
  target : string;
}.

(** The dispatch of [http.server]: the method [do_<command>] is called
    when the handler class has one, and [Handler] defines [do_GET] only;
    any other command is answered by the base class with 501 and its own
    error page. *)
Definition handle (D : DataStore) (r : request) : response :=
  if bool_decide (command r = "GET") then do_GET D (target r)
  else Response 501 ErrorPage.

End Handler.

(** ** A library instance for the examples

    [urllib.parse] on the request targets the examples use: an absolute
    path, optionally followed by [?] and a query of [name=value] pairs
    joined by [&]; percent escapes below [%80] stand for one character
    (the escapes from [%80] on, which [urllib] reads as UTF-8, are left as
    they are). The text of an exception is the interpreter's; the instance
    gives the name of the exception in its place. *)

Module Ref.

Definition hex_digit (c : ascii) : option N :=
  if Chr.is_digit c then Some (Chr.code c - 48)%N
  else if Chr.between 65 70 c then Some (Chr.code c - 55)%N
  else if Chr.between 97 102 c then Some (Chr.code c - 87)%N
  else None.

Fixpoint unquote_chars (l : list ascii) : list ascii :=
  match l with
  | [] => []
  | c :: l' =>
      let keep := c :: unquote_chars l' in
      if bool_decide (c = "%"%char) then
        match l' with
        | h :: ((lo :: l'') as tl) =>
            match hex_digit h, hex_digit lo with
            | Some a, Some b =>
                if (a <? 8)%N then
                  ascii_of_N (16 * a + b) ::
                    match unquote_chars tl with
                    | _ :: r => r
                    | [] => []
                    end
                else keep
            | _, _ => keep
            end
        | _ => keep
        end
      else keep
  end.

Definition unquote (s : string) : string :=
  Str.of_chars (unquote_chars (Str.chars s)).

(** The text before and after the first [c]. *)
Fixpoint cut (c : ascii) (l : list ascii) : list ascii * option (list ascii) :=
  match l with
  | [] => ([], None)
  | x :: l' =>
      if bool_decide (x = c) then ([], Some l')
      else let '(a, b) := cut c l' in (x :: a, b)
  end.

Definition urlparse (target : string) : url :=
  let '(p, q) := cut "?" (Str.chars target) in
  Url (Str.of_chars p) (Str.of_chars (default [] q)).

Definition plus_to_space (c : ascii) : ascii :=
  if bool_decide (c = "+"%char) then " "%char else c.

Definition add_pair (d : gmap string (list string)) (pair : list ascii)
  : gmap string (list string) :=
  match cut "=" pair with
  | (name, Some ((_ :: _) as value)) =>
      let k := Str.of_chars (unquote_chars (plus_to_space <$> name)) in
      let v := Str.of_chars (unquote_chars (plus_to_space <$> value)) in
      <[k := default [] (d !! k) ++ [v]]> d
  | _ => d
  end.

Definition parse_qs (query : string) : gmap string (list string) :=
  foldl add_pair ∅ (Py.split_char "&" [] (Str.chars query)).

Definition str_exn (e : exn) : string :=
  match e with
  | AttributeError => "AttributeError"
  | TypeError => "TypeError"
  | IndexError => "IndexError"
  | JSONDecodeError => "JSONDecodeError"
  end.

#[export] Instance lib : Library :=
  Build_Library urlparse parse_qs unquote str_exn.

End Ref.

(** ** What the claims speak of *)

(** [ws] are the maximal runs of [cls] characters of [l], from left to
    right: between two runs, before the first and behind the last there
    are only characters outside [cls]. *)
Inductive maximal_runs (cls : ascii → bool) : list ascii → list (list ascii) → Prop :=
| runs_none sep :
    Forall (λ c, cls c = false) sep →
    maximal_runs cls sep []
| runs_more sep w rest ws :
    Forall (λ c, cls c = false) sep →
    w ≠ [] →
    Forall (λ c, cls c = true) w →
    (∀ c, head rest = Some c → cls c = false) →
    maximal_runs cls rest ws →
    maximal_runs cls (sep ++ w ++ rest) (w :: ws).

(** [segs] are the pieces of [l] between its maximal runs of [cls]
    characters, the pieces before the first and behind the last run
    included (they may be empty). *)
Inductive split_at_runs (cls : ascii → bool) : list ascii → list (list ascii) → Prop :=
| split_last seg :
    Forall (λ c, cls c = false) seg →
    split_at_runs cls seg [seg]
| split_more seg r rest segs :
    Forall (λ c, cls c = false) seg →
    r ≠ [] →
    Forall (λ c, cls c = true) r →
    (∀ c, head rest = Some c → cls c = false) →
    split_at_runs cls rest segs →
    split_at_runs cls (seg ++ r ++ rest) (seg :: segs).

(** The term [t] stands in [l] at index [i], in any mix of cases, and
    neither the character before nor the character behind it is one of
    [adjacent]. *)
Definition occurs_at (adjacent : ascii → bool) (t l : list ascii) (i : nat) : bool :=
  bool_decide (Chr.lower <$> take (length t) (drop i l) = Chr.lower <$> t)
  && match i with
     | O => true
     | S j => negb (from_option adjacent false (l !! j))
     end
  && negb (from_option adjacent false (l !! (i + length t))).

Definition occurrences (adjacent : ascii → bool) (t s : string) : nat :=
  length (filter (λ i, occurs_at adjacent (Str.chars t) (Str.chars s) i = true)
            (seq 0 (S (String.length s)))).

(** A query term as [tokenize] yields it. *)
Definition is_term (t : string) : Prop :=
  t ≠ "" ∧ Forall (λ c, Chr.is_letter c = true) (Str.chars t).

(** The number of whole-word matches of the term [t] in [s], and what
    [/search] reports for a paper with the given title and abstract. *)
Definition matches (t s : string) : nat := occurrences Chr.is_word t s.

Definition match_score (terms : list string) (title abstract : string) : nat :=
  sum_list ((λ t, matches t title + matches t abstract) <$> terms).

Definition matches_in (terms : list string) (title abstract : string)
  : list string :=
  (if existsb (λ t, bool_decide (0 < matches t title)) terms
   then ["title"] else [])
  ++ (if existsb (λ t, bool_decide (0 < matches t abstract)) terms
      then ["abstract"] else []).

(** The text of the field [k] of a paper: the empty string when the field
    is absent, nothing when it holds something else than a string. *)
Definition text_of (p : paper) (k : string) : option string :=
  match Py.get_or p k (PStr "") with
  | PStr s => Some s
  | _ => None
  end.

Definition has_texts (p : paper) : Prop :=
  is_Some (text_of p "title") ∧ is_Some (text_of p "abstract").

Definition title_of (p : paper) : string := default "" (text_of p "title").
Definition abstract_of (p : paper) : string := default "" (text_of p "abstract").

(** The identifier under which [index_body] files a paper. *)
Definition index_key (p : paper) : pyval :=
  Py.or (Py.get p "arxiv_id") (Py.get p "id").

(** The score and the result of a paper under [/search]. *)
Definition paper_score (terms : list string) (p : paper) : nat :=
  match_score terms (title_of p) (abstract_of p).

Definition paper_hit (terms : list string) (p : paper) : pyval :=
  search_hit p (paper_score terms p)
    (matches_in terms (title_of p) (abstract_of p)).

(** What [/search] puts into a result. *)
Definition proper_hit (r : pyval) : Prop :=
  ∃ (d : paper) (score : nat) (wh : list string),
    r = PDict d ∧
    d !! "match_score" = Some (PNat score) ∧ 0 < score ∧
    d !! "matches_in" = Some (PList (PStr <$> wh)) ∧ wh ≠ [].

(** How often [w] stands in [ws]. *)
Definition word_count (w : string) (ws : list string) : nat :=
  length (filter (λ x, x = w) ws).

(** The tokens of all abstracts, in the order of the corpus. *)
Definition corpus_words (ps : list paper) : list string :=
  ps ≫= λ p, WORD_RE_findall (Str.lower (abstract_of p)).

(** A paper [/stats] can read: the abstract is a string and the
    categories are a list of strings (either may be absent). *)
Definition stats_ready (p : paper) : Prop :=
  is_Some (text_of p "abstract") ∧
  ∃ cs : list string, Py.get_or p "categories" (PList []) = PList (PStr <$> cs).

(** [x] stands before [y] in the ranking: the higher frequency first, and
    of two words with one frequency the smaller first. *)
Definition ranks_before (x y : string * nat) : Prop :=
  y.2 < x.2 ∨ (x.2 = y.2 ∧ String.le x.1 y.1 ∧ x.1 ≠ y.1).

(** ** Auxiliary definitions of the proofs *)

(** The positions at which the pattern of [t] matches in [l], the
    character before [l] being [p]: what [findall] would count if matches
    could not hide one another. *)
Fixpoint hits (t : list ascii) (p : option ascii) (l : list ascii) : nat :=
  (if Re.word_at t p l is Some _ then 1 else 0) +
  match l with
  | [] => 0
  | c :: l' => hits t (Some c) l'
  end.

Definition wordy (o : option ascii) : bool := from_option Chr.is_word false o.

(** The total of the loop and its two flags move together. *)
Definition flags_agree (st : counting) : Prop :=
  0 < total st ↔ in_title st || in_abs st = true.

(** Every entry of the index is a paper of the sequence, filed under its
    own identifier. *)
Definition index_sound (D : DataStore) : Prop :=
  ∀ a p, by_id D !! a = Some p → p ∈ papers D ∧ index_key p = PStr a.

(** The entry of the frequency map for a word counted [n] times. *)
Definition count_entry (n : nat) : option nat :=
  match n with
  | O => None
  | S _ => Some n
  end.

(** [freq] holds the counts of the words of [ws]. *)
Definition counts_of (freq : gmap string nat) (ws : list string) : Prop :=
  ∀ w, freq !! w = count_entry (word_count w ws).

(** ** A sample corpus *)

Definition sample_paper : paper :=
  <["arxiv_id" := PStr "2301.00001"]>
  (<["title" := PStr "Neural networks"]>
  (<["abstract" := PStr "Deep learning. Deep networks!"]>
  (<["categories" := PList [PStr "cs.LG"]]> ∅))).

Definition sample_store : DataStore :=
  MkDataStore [sample_paper] {["2301.00001" := sample_paper]}.

(** ** The entry point *)


Section Main.
(** [int(s)] for a string: [None] stands for [ValueError]. *)
Variable int : string → option Z.

End Main.



(** The reason phrase [send_json] logs: the dictionary lookup with
    [str(status)] as the default. *)
Definition status_msg (status : Z) : string :=
  if bool_decide (status = 200%Z) then "200 OK"
  else if bool_decide (status = 400%Z) then "400 Bad Request"
  else if bool_decide (status = 404%Z) then "404 Not Found"
  else if bool_decide (status = 500%Z) then "500 Internal Server Error"
  else pretty status.

(** ** What the further properties speak of *)

(** The paper is filed under [a] by [DataStore.__init__]. *)
Definition filed_under (a : string) (p : paper) : bool :=
  match index_key p with
  | PStr s => bool_decide (s = a)
  | _ => false
  end.

(** The categories of a paper [/stats] can read. *)
Definition categories_of (p : paper) : list pyval :=
  match Py.get_or p "categories" (PList []) with
  | PList cs => cs
  | _ => []
  end.

(** The answer of [do_GET] to an exception [e]. *)
Definition internal_error `{Library} (e : exn) : response :=
  Response 500 (Json (PDict (<["detail" := PStr (str_exn e)]>
                              (error_obj "internal server error")))).

(** [cat.get(c)] on the counter of categories. *)
Fixpoint cat_get (c : pyval) (cat : list (pyval * nat)) : option nat :=
  match cat with
  | [] => None
  | (k, n) :: cat' => if Py.key_eq k c then Some n else cat_get c cat'
  end.

(** The names in the category lists of the corpus, paper after paper,
    repetitions kept. *)
Definition category_names (p : paper) : list string :=
  omap (λ c, if c is PStr s then Some s else None) (categories_of p).

Definition corpus_categories (ps : list paper) : list string :=
  ps ≫= category_names.

(** The loop state [st] moved on by what another run of the loop found. *)
Definition counting_add (st d : counting) : counting :=
  Counting (total st + total d) (in_title st || in_title d)
    (in_abs st || in_abs d).

(** The fields two lists of fields name together, in the order of
    [count_terms]. *)
Definition fields_union (w1 w2 : list string) : list string :=
  (if bool_decide ("title" ∈ w1 ++ w2) then ["title"] else [])
  ++ (if bool_decide ("abstract" ∈ w1 ++ w2) then ["abstract"] else []).

(** The sample paper with a [null] title. *)
Definition unreadable_paper : paper := <["title" := PNone]> sample_paper.

(** The sample paper with a number for an abstract. *)
Definition numbered_paper : paper := <["abstract" := PInt 5]> sample_paper.

(** * Properties *)

(** ** The class scanner *)

Section ClassScanner.
Variable cls : ascii → bool.

Lemma run_all (l : list ascii) : Forall (λ c, cls c = true) (Re.run cls l).
Proof.
  induction l as [|c l IH]; simpl; [constructor|].
  destruct (cls c) eqn:E; constructor; auto.
Qed.

Lemma run_split (l : list ascii) :
  l = Re.run cls l ++ drop (length (Re.run cls l)) l.
Proof.
  induction l as [|c l IH]; simpl; [done|].
  destruct (cls c); simpl; [by f_equal|done].
Qed.

Lemma run_stops (l : list ascii) c :
  head (drop (length (Re.run cls l)) l) = Some c → cls c = false.
Proof.
  induction l as [|x l IH]; simpl; [done|].
  destruct (cls x) eqn:E; simpl; [done|].
  intros [= ->]. done.
Qed.

Lemma run_app (w rest : list ascii) :
  Forall (λ c, cls c = true) w →
  (∀ c, head rest = Some c → cls c = false) →
  Re.run cls (w ++ rest) = w.
Proof.
  intros Hw Hrest. induction Hw as [|c w Hc _ IH]; simpl.
  - destruct rest as [|c rest]; simpl; [done|].
    by rewrite (Hrest c eq_refl).
  - by rewrite Hc, IH.
Qed.

Lemma findall_go_skip (k : nat) (l : list ascii) :
  Re.findall_go cls k l = Re.findall_go cls 0 (drop k l).
Proof.
  revert k. induction l as [|c l IH]; intros [|k]; simpl; auto.
Qed.

Lemma findall_go_miss c (l : list ascii) :
  cls c = false → Re.findall_go cls 0 (c :: l) = Re.findall_go cls 0 l.
Proof. intros E. simpl. by rewrite E. Qed.

Lemma findall_go_hit c (l : list ascii) :
  cls c = true →
  Re.findall_go cls 0 (c :: l) =
    Re.run cls (c :: l) ::
    Re.findall_go cls 0 (drop (length (Re.run cls (c :: l))) (c :: l)).
Proof.
  intros E. simpl. rewrite E. f_equal. simpl.
  rewrite Nat.sub_0_r. apply findall_go_skip.
Qed.

Lemma maximal_runs_cons c l ws :
  cls c = false → maximal_runs cls l ws → maximal_runs cls (c :: l) ws.
Proof.
  intros E [sep Hsep|sep w rest ws' Hsep Hw Hall Hrest Hrec].
  - constructor. by constructor.
  - change (c :: sep ++ w ++ rest) with ((c :: sep) ++ w ++ rest).
    constructor; auto.
Qed.

Lemma findall_go_runs (l : list ascii) :
  maximal_runs cls l (Re.findall_go cls 0 l).
Proof.
  remember (length l) as n eqn:Hn. revert l Hn.
  induction (lt_wf n) as [n _ IH]. intros l ->.
  destruct l as [|c l]; [by repeat constructor|].
  destruct (cls c) eqn:E.
  - rewrite findall_go_hit by done.
    rewrite (run_split (c :: l)) at 1.
    apply (runs_more cls []); [constructor| |apply run_all|apply run_stops|].
    + simpl. by rewrite E.
    + eapply IH; [|done]. simpl. rewrite E. simpl. rewrite length_drop. lia.
  - rewrite findall_go_miss by done.
    apply maximal_runs_cons; [done|]. eapply IH; [|done]. simpl. lia.
Qed.

Lemma findall_go_sep (sep l : list ascii) :
  Forall (λ c, cls c = false) sep →
  Re.findall_go cls 0 (sep ++ l) = Re.findall_go cls 0 l.
Proof.
  induction 1 as [|c sep Hc _ IH]; [done|].
  simpl app. by rewrite findall_go_miss.
Qed.

Lemma maximal_runs_unique (l : list ascii) ws :
  maximal_runs cls l ws → ws = Re.findall_go cls 0 l.
Proof.
  induction 1 as [sep Hsep|sep w rest ws Hsep Hw Hall Hrest _ IH].
  - rewrite <-(app_nil_r sep). by rewrite findall_go_sep.
  - rewrite findall_go_sep by done.
    destruct w as [|c w]; [done|]. simpl app.
    apply Forall_cons in Hall as Hc. destruct Hc as [Hc _].
    rewrite findall_go_hit by done.
    change (c :: w ++ rest) with ((c :: w) ++ rest).
    rewrite run_app by done. by rewrite drop_app_length, IH.
Qed.

End ClassScanner.

Section SplitScanner.
Variable cls : ascii → bool.

Lemma split_go_skip (k : nat) (cur l : list ascii) :
  Re.split_go cls k cur l = Re.split_go cls 0 cur (drop k l).
Proof.
  revert k. induction l as [|c l IH]; intros [|k]; simpl; auto.
Qed.

Lemma split_go_miss c (cur l : list ascii) :
  cls c = false →
  Re.split_go cls 0 cur (c :: l) = Re.split_go cls 0 (cur ++ [c]) l.
Proof. intros E. simpl. by rewrite E. Qed.

Lemma split_go_hit c (cur l : list ascii) :
  cls c = true →
  Re.split_go cls 0 cur (c :: l) =
    cur :: Re.split_go cls 0 [] (drop (length (Re.run cls (c :: l))) (c :: l)).
Proof.
  intros E. simpl. rewrite E. f_equal. simpl.
  rewrite Nat.sub_0_r. apply split_go_skip.
Qed.

Lemma split_go_pieces (cur l : list ascii) :
  Forall (λ c, cls c = false) cur →
  split_at_runs cls (cur ++ l) (Re.split_go cls 0 cur l).
Proof.
  remember (length l) as n eqn:Hn. revert cur l Hn.
  induction (lt_wf n) as [n _ IH]. intros cur l -> Hcur.
  destruct l as [|c l].
  - rewrite app_nil_r. by constructor.
  - destruct (cls c) eqn:E.
    + rewrite split_go_hit by done.
      rewrite (run_split cls (c :: l)) at 1.
      constructor; [done| |apply run_all|apply run_stops|].
      * simpl. by rewrite E.
      * apply (IH (length (drop (length (Re.run cls (c :: l))) (c :: l))) ) with (cur := []);
          [|done|constructor].
        simpl. rewrite E. simpl. rewrite length_drop. lia.
    + rewrite split_go_miss by done.
      replace (cur ++ c :: l) with ((cur ++ [c]) ++ l) by by rewrite <-app_assoc.
      eapply IH; [|done|]; [simpl; lia|].
      apply Forall_app; split; [done|]. by repeat constructor.
Qed.

Lemma split_go_seg (seg cur l : list ascii) :
  Forall (λ c, cls c = false) seg →
  Re.split_go cls 0 cur (seg ++ l) = Re.split_go cls 0 (cur ++ seg) l.
Proof.
  intros Hseg. revert cur.
  induction Hseg as [|c seg Hc _ IH]; intros cur; [by rewrite app_nil_r|].
  simpl app. rewrite split_go_miss by done.
  rewrite IH. by rewrite <-app_assoc.
Qed.

Lemma split_at_runs_unique (l : list ascii) segs :
  split_at_runs cls l segs → segs = Re.split_go cls 0 [] l.
Proof.
  induction 1 as [seg Hseg|seg r rest segs Hseg Hr Hall Hrest _ IH].
  - rewrite <-(app_nil_r seg) at 2. by rewrite split_go_seg.
  - rewrite split_go_seg by done. simpl.
    destruct r as [|c r]; [done|].
    apply Forall_cons in Hall as Hc. destruct Hc as [Hc _].
    change ((c :: r) ++ rest) with (c :: (r ++ rest)).
    rewrite split_go_hit by done.
    change (c :: r ++ rest) with ((c :: r) ++ rest).
    rewrite run_app by done. by rewrite drop_app_length, IH.
Qed.

(** A text without a [cls] character is one piece. *)
Lemma split_go_whole (l : list ascii) :
  Forall (λ c, cls c = false) l → Re.split_go cls 0 [] l = [l].
Proof.
  intros Hl. symmetry. apply split_at_runs_unique. by constructor.
Qed.

End SplitScanner.

(** ** Characters and strings *)

Lemma chars_of_chars (l : list ascii) : Str.chars (Str.of_chars l) = l.
Proof. apply String.list_ascii_of_string_of_list_ascii. Qed.

Lemma of_chars_chars (s : string) : Str.of_chars (Str.chars s) = s.
Proof. apply String.string_of_list_ascii_of_string. Qed.

Lemma chars_fmap_of_chars (ls : list (list ascii)) :
  Str.chars <$> (Str.of_chars <$> ls) = ls.
Proof.
  induction ls as [|l ls IH]; csimpl; [done|].
  by rewrite chars_of_chars, IH.
Qed.

Lemma chars_lower (s : string) :
  Str.chars (Str.lower s) = Chr.lower <$> Str.chars s.
Proof. apply chars_of_chars. Qed.

Lemma chars_empty (s : string) : Str.chars s = [] → s = "".
Proof. by destruct s. Qed.

Lemma length_chars (s : string) : length (Str.chars s) = String.length s.
Proof. induction s; simpl; auto. Qed.

Lemma lower_letter (c : ascii) :
  Chr.is_letter (Chr.lower c) = true → Chr.is_lower (Chr.lower c) = true.
Proof. by destruct c as [[] [] [] [] [] [] [] []]. Qed.

Lemma maximal_runs_elem cls (l : list ascii) ws w :
  maximal_runs cls l ws → w ∈ ws →
  w ≠ [] ∧ Forall (λ c, cls c = true ∧ c ∈ l) w.
Proof.
  induction 1 as [sep Hsep|sep v rest ws Hsep Hv Hall Hrest Hrec IH];
    intros Hw; [by apply elem_of_nil in Hw|].
  apply elem_of_cons in Hw as [->|Hw].
  - split; [done|]. eapply Forall_impl; [apply Forall_and; split;
      [exact Hall|apply Forall_forall; intros c Hc; exact Hc]|].
    intros c [? ?]. split; [done|].
    apply elem_of_app; right. apply elem_of_app; by left.
  - destruct (IH Hw) as [? Hin]. split; [done|].
    eapply Forall_impl; [exact Hin|]. intros c [? ?]. split; [done|].
    apply elem_of_app; right. apply elem_of_app; by right.
Qed.

Lemma tokenize_str (s : string) :
  tokenize (PStr s) = Ok (WORD_RE_findall (Str.lower s)).
Proof.
  unfold tokenize, Py.or. simpl. by case_bool_decide; subst.
Qed.

(** ** The tokenizer *)

Lemma WORD_RE_findall_chars (s : string) :
  Str.chars <$> WORD_RE_findall s = Re.findall_go Chr.is_letter 0 (Str.chars s).
Proof. unfold WORD_RE_findall, Re.findall_class. apply chars_fmap_of_chars. Qed.

(** The tokens of a lower-cased text are non-empty words over a-z. *)
Lemma WORD_RE_findall_lower (s : string) :
  Forall (λ t, t ≠ "" ∧ Forall (λ c, Chr.is_lower c = true) (Str.chars t))
    (WORD_RE_findall (Str.lower s)).
Proof.
  pose proof (findall_go_runs Chr.is_letter (Str.chars (Str.lower s))) as Hruns.
  rewrite <-WORD_RE_findall_chars in Hruns.
  apply Forall_forall. intros t Ht.
  assert (Str.chars t ∈ Str.chars <$> WORD_RE_findall (Str.lower s)) as Hw.
  { apply list_elem_of_fmap. by exists t. }
  destruct (maximal_runs_elem _ _ _ _ Hruns Hw) as [Hne Hall]. split.
  - by intros ->.
  - eapply Forall_impl; [exact Hall|].
    intros c [Hc Hin]. rewrite chars_lower in Hin.
    apply list_elem_of_fmap in Hin as (c' & -> & _).
    by apply lower_letter.
Qed.


(** Claim C8. [tokenize] returns, from left to right, the maximal runs of
    ASCII letters of its lower-cased input and nothing else: every token is
    a non-empty word of the letters a-z, whatever lies between two tokens
    is dropped, and the list is the only one with this property. [None] and
    the empty string give no token; ["Hello, World! 123"] gives [hello]
    and [world]. *)
Theorem tokenize_maximal_runs :
  tokenize PNone = Ok [] ∧
  tokenize (PStr "") = Ok [] ∧
  tokenize (PStr "Hello, World! 123") = Ok ["hello"; "world"] ∧
  ∀ s : string, ∃ toks : list string,
    tokenize (PStr s) = Ok toks ∧
    maximal_runs Chr.is_letter (Str.chars (Str.lower s)) (Str.chars <$> toks) ∧
    (∀ ws, maximal_runs Chr.is_letter (Str.chars (Str.lower s)) ws →
           ws = Str.chars <$> toks) ∧
    Forall (λ t, t ≠ "" ∧ Forall (λ c, Chr.is_lower c = true) (Str.chars t)) toks.
Proof.
  repeat split; try reflexivity.
  intros s. exists (WORD_RE_findall (Str.lower s)).
  rewrite WORD_RE_findall_chars.
  repeat split.
  - apply tokenize_str.
  - apply findall_go_runs.
  - apply maximal_runs_unique.
  - apply WORD_RE_findall_lower.
Qed.

(** ** The abstract analyser *)

Lemma strip_blank (g : string) : Str.is_blank g = false ↔ Str.strip g ≠ "".
Proof.
  unfold Str.is_blank. by rewrite bool_decide_eq_false.
Qed.

(** Claim C2. For a paper whose abstract text is a string ([s], the empty
    one when the paper has no abstract), [abstract_stats] returns, and its
    [total_sentences] is the number of pieces that are not empty after
    trimming, the pieces being those the maximal runs of [.], [!] and [?]
    cut the raw abstract into; an abstract without any of the three
    characters that is not blank counts as one sentence. *)
Theorem abstract_stats_total_sentences (p : paper) (s : string) :
  abstract_text p = PStr s →
  ∃ (st : paper) (segs : list string),
    abstract_stats p = Ok st ∧
    split_at_runs Chr.is_terminator (Str.chars s) (Str.chars <$> segs) ∧
    (∀ segs', split_at_runs Chr.is_terminator (Str.chars s) segs' →
              segs' = Str.chars <$> segs) ∧
    st !! "total_sentences"
      = Some (PNat (length (filter (λ g, Str.strip g ≠ "") segs))) ∧
    (Forall (λ c, Chr.is_terminator c = false) (Str.chars s) →
     Str.strip s ≠ "" →
     st !! "total_sentences" = Some (PInt 1)).
Proof.
  intros Htext.
  eexists _, (Re.split_class Chr.is_terminator s).
  unfold abstract_stats. rewrite Htext, tokenize_str. simpl.
  split; [reflexivity|].
  unfold Re.split_class. rewrite chars_fmap_of_chars.
  split; [apply (split_go_pieces _ []); constructor|].
  split; [apply split_at_runs_unique|].
  assert (sentences s
          = filter (λ g, Str.strip g ≠ "")
              (Str.of_chars <$> Re.split_go Chr.is_terminator 0 [] (Str.chars s)))
    as Hsent.
  { unfold sentences, Re.split_class. apply list_filter_iff.
    intros g. apply strip_blank. }
  split.
  - rewrite lookup_insert_ne, lookup_insert_ne, lookup_insert_eq by done.
    by rewrite Hsent.
  - intros Hnone Hfull.
    rewrite lookup_insert_ne, lookup_insert_ne, lookup_insert_eq by done.
    rewrite Hsent, split_go_whole by done. simpl.
    rewrite of_chars_chars. rewrite filter_cons_True by done. done.
Qed.

(** ** The whole-word scanner *)

Lemma letter_lower (a : ascii) :
  Chr.is_letter a = true → Chr.is_lower (Chr.lower a) = true.
Proof. by destruct a as [[] [] [] [] [] [] [] []]. Qed.

Lemma lower_is_word (b : ascii) :
  Chr.is_lower (Chr.lower b) = true → Chr.is_word b = true.
Proof. by destruct b as [[] [] [] [] [] [] [] []]. Qed.

Lemma eq_ci_word (a b : ascii) :
  Chr.is_letter a = true → Chr.eq_ci a b = true → Chr.is_word b = true.
Proof.
  intros Ha Hab. apply lower_is_word.
  apply bool_decide_eq_true in Hab. rewrite <-Hab. by apply letter_lower.
Qed.

Lemma lit_prefix_take (t l : list ascii) :
  Re.lit_prefix t l
  = bool_decide (Chr.lower <$> take (length t) l = Chr.lower <$> t).
Proof.
  revert l. induction t as [|a t IH]; intros [|b l]; csimpl; try done.
  rewrite IH. unfold Chr.eq_ci.
  apply eq_true_iff_eq.
  rewrite andb_true_iff, !bool_decide_eq_true.
  split; [intros [-> ->]; done|intros [= -> ->]; done].
Qed.

Lemma lit_prefix_words (t l : list ascii) :
  Forall (λ c, Chr.is_letter c = true) t →
  Re.lit_prefix t l = true →
  Forall (λ c, Chr.is_word c = true) (take (length t) l).
Proof.
  intros Ht. revert l.
  induction Ht as [|a t Ha _ IH]; intros [|b l]; simpl; try done.
  intros [Hab Hl]%andb_true_iff. constructor; [by eapply eq_ci_word|auto].
Qed.

Lemma word_at_take (t : list ascii) p l m :
  Re.word_at t p l = Some m → m = take (length t) l ∧ Re.lit_prefix t l = true.
Proof.
  unfold Re.word_at. destruct (Re.lit_prefix t l); [|by rewrite andb_false_r].
  case_match; naive_solver.
Qed.

(** For a term of letters the two [\b] ask for a non-word character, or
    an end of the text, on either side. *)
Lemma word_at_term (t : list ascii) p l :
  t ≠ [] → Forall (λ c, Chr.is_letter c = true) t →
  (if Re.word_at t p l is Some _ then true else false)
  = negb (wordy p) && Re.lit_prefix t l
    && negb (wordy (head (drop (length t) l))).
Proof.
  intros Hne Ht. unfold Re.word_at.
  destruct (Re.lit_prefix t l) eqn:Hpre;
    [|by rewrite !andb_false_r].
  pose proof (lit_prefix_words t l Ht Hpre) as Hw.
  destruct t as [|a t]; [done|]. destruct l as [|b l]; [done|].
  simpl in Hw |- *. apply Forall_cons in Hw as [Hb Hw].
  assert (∃ e, last (b :: take (length t) l) = Some e ∧ Chr.is_word e = true)
    as (e & He & Hwe).
  { destruct (proj2 (last_is_Some (b :: take (length t) l))) as [e He]; [done|].
    exists e. split; [done|].
    apply last_Some_elem_of, elem_of_cons in He as [->|He]; [done|].
    by apply (proj1 (Forall_forall _ _) Hw). }
  rewrite He. unfold Re.is_boundary, wordy. simpl. rewrite Hb, Hwe.
  rewrite !andb_true_r. by repeat case_match.
Qed.

Lemma occurs_at_suffix (t pre l : list ascii) :
  t ≠ [] → Forall (λ c, Chr.is_letter c = true) t →
  occurs_at Chr.is_word t (pre ++ l) (length pre)
  = (if Re.word_at t (last pre) l is Some _ then true else false).
Proof.
  intros Hne Ht. rewrite word_at_term by done.
  unfold occurs_at. rewrite drop_app_length, <-lit_prefix_take.
  rewrite (andb_comm (negb (wordy (last pre)))).
  f_equal; [f_equal|].
  - destruct pre as [|x pre] using rev_ind; [done|].
    rewrite last_snoc, length_app. simpl.
    replace (length pre + 1) with (S (length pre)) by lia.
    rewrite <-app_assoc, lookup_app_r by lia.
    by rewrite Nat.sub_diag.
  - rewrite lookup_app_r by lia. rewrite head_lookup, lookup_drop.
    do 3 f_equal. lia.
Qed.

Lemma occurrences_hits (t pre l : list ascii) :
  t ≠ [] → Forall (λ c, Chr.is_letter c = true) t →
  length (filter (λ i, occurs_at Chr.is_word t (pre ++ l) i = true)
            (seq (length pre) (S (length l))))
  = hits t (last pre) l.
Proof.
  intros Hne Ht. revert pre.
  induction l as [|c l IH]; intros pre.
  - simpl seq. unfold hits.
    pose proof (occurs_at_suffix t pre [] Hne Ht) as Hocc.
    destruct (Re.word_at t (last pre) []).
    + by rewrite filter_cons_True.
    + rewrite filter_cons_False; [done|]. by rewrite Hocc.
  - change (seq (length pre) (S (length (c :: l))))
      with (length pre :: seq (S (length pre)) (S (length l))).
    pose proof (occurs_at_suffix t pre (c :: l) Hne Ht) as Hocc.
    specialize (IH (pre ++ [c])).
    rewrite <-app_assoc, length_app, last_snoc in IH. simpl in IH.
    replace (length pre + 1) with (S (length pre)) in IH by lia.
    simpl hits. rewrite <-IH.
    destruct (Re.word_at t (last pre) (c :: l)).
    + by rewrite filter_cons_True.
    + rewrite filter_cons_False; [done|]. by rewrite Hocc.
Qed.

(** While the scanner passes over a match it stands between two word
    characters, where the pattern cannot match. *)
Lemma word_findall_go_hits (t : list ascii) k p l :
  t ≠ [] → Forall (λ c, Chr.is_letter c = true) t →
  (k = 0 ∨ (wordy p = true ∧ Forall (λ c, Chr.is_word c = true) (take k l))) →
  length (Re.word_findall_go t k p l) = hits t p l.
Proof.
  intros Hne Ht. revert k p.
  induction l as [|c l IH]; intros k p Hinv.
  - simpl. pose proof (word_at_term t p [] Hne Ht) as Hat.
    destruct t; [done|]. simpl in Hat. rewrite andb_false_r in Hat.
    destruct (Re.word_at _ p []); [done|]. by destruct k.
  - simpl. pose proof (word_at_term t p (c :: l) Hne Ht) as Hat.
    destruct k as [|k].
    + destruct (Re.word_at t p (c :: l)) as [m|] eqn:Hm.
      * apply word_at_take in Hm as [-> Hpre].
        pose proof (lit_prefix_words t _ Ht Hpre) as Hw.
        destruct t as [|a t]; [done|]. simpl in Hw |- *.
        apply Forall_cons in Hw as [Hc Hw].
        rewrite IH; [done|]. right. split; [done|].
        rewrite Nat.sub_0_r, length_take, <-take_take.
        by rewrite (take_ge l (length l)) by lia.
      * simpl. apply IH. by left.
    + destruct Hinv as [|[Hp Hw]]; [done|].
      rewrite Hp in Hat. simpl in Hat.
      destruct (Re.word_at t p (c :: l)); [done|].
      simpl in Hw |- *. apply Forall_cons in Hw as [Hc Hw].
      apply IH. right. by split.
Qed.

Lemma is_term_chars (t : string) :
  is_term t → Str.chars t ≠ [] ∧ Forall (λ c, Chr.is_letter c = true) (Str.chars t).
Proof.
  intros [Hne Ht]. split; [|done]. intros Hnil. by apply Hne, chars_empty.
Qed.

Lemma word_findall_matches (t s : string) :
  is_term t → length (Re.word_findall t s) = matches t s.
Proof.
  intros [Hne Ht]%is_term_chars.
  unfold Re.word_findall, matches, occurrences.
  rewrite length_fmap, word_findall_go_hits by auto.
  rewrite <-(occurrences_hits _ [] (Str.chars s)) by done.
  simpl. by rewrite length_chars.
Qed.

Lemma count_in_term (t s : string) :
  is_term t → count_in t (PStr s) = Ok (matches t s).
Proof. intros Ht. simpl. by rewrite word_findall_matches. Qed.

(** ** The term counter *)

Lemma for_each_inv {A S : Type} (P : S → Prop) (body : S → A → result S) l s s' :
  (∀ s x s', body s x = Ok s' → P s → P s') →
  for_each body l s = Ok s' → P s → P s'.
Proof.
  intros Hbody. revert s.
  induction l as [|x l IH]; simpl; intros s Hrun Hs; [by injection Hrun as <-|].
  destruct (body s x) as [s1|e] eqn:Hx; [|done].
  simpl in Hrun. eauto.
Qed.

(** One round on a haystack whose two fields are strings. *)
Lemma count_terms_body_strings (h : paper) (a b : string) st t :
  is_term t →
  h !! "title" = Some (PStr a) → h !! "abstract" = Some (PStr b) →
  count_terms_body h st t
  = Ok (Counting (total st + matches t a + matches t b)
          (in_title st || bool_decide (0 < matches t a))
          (in_abs st || bool_decide (0 < matches t b))).
Proof.
  intros Ht Ha Hb. unfold count_terms_body.
  rewrite Ha, Hb, !count_in_term by done. done.
Qed.

Lemma count_terms_loop_strings (h : paper) (a b : string) terms st :
  Forall is_term terms →
  h !! "title" = Some (PStr a) → h !! "abstract" = Some (PStr b) →
  for_each (count_terms_body h) terms st
  = Ok (Counting (total st + match_score terms a b)
          (in_title st || existsb (λ t, bool_decide (0 < matches t a)) terms)
          (in_abs st || existsb (λ t, bool_decide (0 < matches t b)) terms)).
Proof.
  intros Hterms Ha Hb. revert st.
  induction Hterms as [|t terms Ht _ IH]; intros st; simpl.
  - unfold match_score. simpl. rewrite Nat.add_0_r, !orb_false_r. by destruct st.
  - rewrite (count_terms_body_strings h a b) by done. simpl.
    rewrite IH. simpl. unfold match_score. csimpl.
    rewrite !orb_assoc. do 2 f_equal. lia.
Qed.

Lemma count_terms_strings (h : paper) (a b : string) terms :
  Forall is_term terms →
  h !! "title" = Some (PStr a) → h !! "abstract" = Some (PStr b) →
  count_terms h terms = Ok (match_score terms a b, matches_in terms a b).
Proof.
  intros Hterms Ha Hb. unfold count_terms.
  by rewrite (count_terms_loop_strings h a b).
Qed.

Lemma flags_agree_title st c :
  flags_agree st →
  flags_agree (Counting (total st + c) (in_title st || bool_decide (0 < c))
                 (in_abs st)).
Proof.
  unfold flags_agree. simpl. intros Hs. destruct (decide (0 < c)) as [Hc|Hc].
  - rewrite (bool_decide_eq_true_2 _ Hc), !orb_true_r. simpl. split; [done|lia].
  - rewrite (bool_decide_eq_false_2 _ Hc), !orb_false_r.
    by replace (total st + c) with (total st) by lia.
Qed.

Lemma flags_agree_abs st c :
  flags_agree st →
  flags_agree (Counting (total st + c) (in_title st)
                 (in_abs st || bool_decide (0 < c))).
Proof.
  unfold flags_agree. simpl. intros Hs. destruct (decide (0 < c)) as [Hc|Hc].
  - rewrite (bool_decide_eq_true_2 _ Hc), !orb_true_r. split; [done|lia].
  - rewrite (bool_decide_eq_false_2 _ Hc), !orb_false_r.
    by replace (total st + c) with (total st) by lia.
Qed.

Lemma count_terms_body_flags (h : paper) st t st' :
  count_terms_body h st t = Ok st' → flags_agree st → flags_agree st'.
Proof.
  unfold count_terms_body. intros Hrun Hinv.
  destruct (h !! "title") as [v|]; simpl in Hrun.
  - destruct (count_in t v) as [c|e]; [|done]. simpl in Hrun.
    apply (flags_agree_title _ c) in Hinv.
    destruct (h !! "abstract") as [v'|]; simpl in Hrun.
    + destruct (count_in t v') as [c'|e]; [|done]. injection Hrun as <-.
      by apply (flags_agree_abs _ c') in Hinv.
    + by injection Hrun as <-.
  - destruct (h !! "abstract") as [v'|]; simpl in Hrun.
    + destruct (count_in t v') as [c'|e]; [|done]. injection Hrun as <-.
      by apply flags_agree_abs.
    + by injection Hrun as <-.
Qed.

Lemma count_terms_flags (h : paper) terms tot wh :
  count_terms h terms = Ok (tot, wh) → (0 < tot ↔ wh ≠ []).
Proof.
  unfold count_terms.
  destruct (for_each _ terms _) as [st|e] eqn:Hloop; [|done].
  simpl. intros [= <- <-].
  apply (for_each_inv flags_agree) in Hloop;
    [|apply count_terms_body_flags|split; simpl; [lia|done]].
  unfold flags_agree in Hloop. rewrite Hloop.
  by destruct (in_title st), (in_abs st).
Qed.

(** ** The request handler *)

Section HandlerFacts.
Context `{Library}.


Lemma path_parts_search : length (path_parts "/search") = 1.
Proof. unfold path_parts. by rewrite length_fmap. Qed.

Lemma path_parts_stats : length (path_parts "/stats") = 1.
Proof. unfold path_parts. by rewrite length_fmap. Qed.

Lemma route_unavailable (D : DataStore) (target : string) :
  exists_ D = false →
  route D target
  = Ok (Response 500 (Json (PDict (error_obj "papers.json not found or empty")))).
Proof. intros HD. unfold route. by rewrite HD. Qed.

Lemma route_search (D : DataStore) (target : string) :
  exists_ D = true →
  path (urlparse target) = "/search" →
  route D target
  = (q ← query_q (query (urlparse target));
     if bool_decide (q = "") then
       Ok (Response 400 (Json (PDict (error_obj "missing query parameter 'q'"))))
     else
       terms ← tokenize (PStr q);
       if bool_decide (terms = []) then
         Ok (Response 400 (Json (PDict (error_obj "malformed query"))))
       else
         results ← search terms (papers D);
         Ok (Response 200 (Json (PDict (<["query" := PStr q]>
                                        (<["results" := PList results]> ∅)))))).
Proof.
  intros HD Hpath. unfold route. rewrite HD, Hpath, path_parts_search. done.
Qed.

Lemma route_unknown_id (D : DataStore) (target aid : string) :
  exists_ D = true →
  path_parts (path (urlparse target)) = ["papers"; aid] →
  by_id D !! aid = None →
  route D target
  = Ok (Response 404 (Json (PDict (<["arxiv_id" := PStr aid]>
                                   (error_obj "unknown paper id"))))).
Proof.
  intros HD Hparts Hid. unfold route. rewrite HD, Hparts. simpl.
  rewrite andb_false_r. simpl. by rewrite Hid.
Qed.

Lemma route_unknown_path (D : DataStore) (target : string) :
  exists_ D = true →
  path (urlparse target) ≠ "/papers" →
  path (urlparse target) ≠ "/search" →
  path (urlparse target) ≠ "/stats" →
  (¬ ∃ aid, path_parts (path (urlparse target)) = ["papers"; aid]) →
  route D target
  = Ok (Response 404 (Json (PDict (error_obj "endpoint not found")))).
Proof.
  intros HD H1 H2 H3 H4. unfold route. rewrite HD. simpl.
  rewrite !(bool_decide_eq_false_2 (path (urlparse target) = _)) by done.
  simpl.
  destruct (path_parts (path (urlparse target))) as [|p0 [|aid [|x parts]]];
    try done.
  simpl. case_bool_decide as Hp; [|done].
  exfalso. apply H4. exists aid. by injection Hp as ->.
Qed.

Lemma query_q_head (qs : string) (v : string) :
  head (default [""] (parse_qs qs !! "q")) = Some v →
  query_q qs = Ok (Str.strip v).
Proof.
  unfold query_q. destruct (default _ _) as [|v' vs]; [done|].
  intros [= ->]. by case_bool_decide; subst.
Qed.

End HandlerFacts.

(** ** The document store *)

Lemma index_body_dict (st : DataStore) (p : paper) :
  ∃ st', index_body st (PDict p) = Ok st' ∧ papers st' = papers st ++ [p] ∧
         (index_sound st → index_sound st').
Proof.
  eexists. split; [reflexivity|]. split; [done|].
  intros Hst a q. simpl. fold (index_key p).
  destruct (index_key p) as [| | |a'|? |?] eqn:Hkey;
    try (intros [? ?]%Hst; split; [apply elem_of_app; by left|done]).
  destruct (decide (a' = a)) as [->|Hne].
  - rewrite lookup_insert_eq. intros [= <-]. split; [|done].
    apply elem_of_app; right. by apply list_elem_of_singleton.
  - rewrite lookup_insert_ne by done.
    intros [? ?]%Hst; split; [apply elem_of_app; by left|done].
Qed.

Lemma index_loop_dicts (ps : list paper) (st : DataStore) :
  ∃ st', for_each index_body (PDict <$> ps) st = Ok st' ∧
         papers st' = papers st ++ ps ∧
         (index_sound st → index_sound st').
Proof.
  revert st. induction ps as [|p ps IH]; intros st.
  - exists st. by rewrite app_nil_r.
  - destruct (index_body_dict st p) as (st1 & Hp & Hps1 & Hsound1).
    destruct (IH st1) as (st' & Hrun & Hps & Hsound).
    exists st'. rewrite fmap_cons. cbn [for_each]. rewrite Hp.
    split; [done|]. split; [|auto].
    by rewrite Hps, Hps1, <-app_assoc.
Qed.

Lemma DataStore_init_array (ps : list paper) :
  ∃ D, DataStore_init (Holds (PList (PDict <$> ps))) = Ok D ∧
       papers D = ps ∧ index_sound D.
Proof.
  destruct (index_loop_dicts ps (MkDataStore [] ∅)) as (D & Hrun & Hps & Hsound).
  exists D. split; [|split; [done|]].
  - unfold DataStore_init. simpl. unfold Py.or. simpl.
    case_bool_decide as Hlen; simpl; [|done].
    rewrite length_fmap in Hlen. by destruct ps.
  - apply Hsound. intros a p. simpl. by rewrite lookup_empty.
Qed.

Lemma DataStore_init_object (d : gmap string pyval) :
  d ≠ ∅ → DataStore_init (Holds (PDict d)) = Raise AttributeError.
Proof.
  intros Hd. unfold DataStore_init. simpl. unfold Py.or. simpl.
  rewrite bool_decide_eq_false_2 by by rewrite map_size_empty_iff.
  simpl. destruct (map_to_list d) as [|kv kvs] eqn:Hl; [|done].
  by apply map_to_list_empty_iff in Hl.
Qed.

(** Claim C4, as the code has it. The document the store accepts is a
    bare array of paper objects: the store is built, its sequence of papers
    is that array, element for element and field for field, and every
    entry of the index is one of them. A document that is an object with
    any key, [papers] included, is not unwrapped: the constructor runs over
    its keys and raises on the first. *)
Theorem store_loads_bare_array :
  (∀ ps : list paper,
     ∃ D, DataStore_init (Holds (PList (PDict <$> ps))) = Ok D ∧
          papers D = ps ∧
          ∀ a p, by_id D !! a = Some p → p ∈ ps ∧ index_key p = PStr a) ∧
  (∀ d : gmap string pyval,
     d ≠ ∅ → DataStore_init (Holds (PDict d)) = Raise AttributeError).
Proof.
  split.
  - intros ps. destruct (DataStore_init_array ps) as (D & HD & Hps & Hsound).
    exists D. split; [done|]. split; [done|].
    intros a p Hap. rewrite <-Hps. by apply Hsound.
  - apply DataStore_init_object.
Qed.

Lemma store_loads_bare_array_witness :
  DataStore_init (Holds (PDict {["papers" := PList [PDict sample_paper]]}))
  = Raise AttributeError.
Proof.
  apply (proj2 store_loads_bare_array). by apply insert_non_empty.
Defined.

(** An object with a [papers] array is not served like the array. *)
Lemma papers_object_counterexample :
  DataStore_init (Holds (PList [PDict sample_paper])) = Ok sample_store ∧
  DataStore_init (Holds (PDict {["papers" := PList [PDict sample_paper]]}))
  = Raise AttributeError.
Proof. split; by vm_compute. Qed.

(** Claim C3, as the code has it. With the corpus file missing the store
    is built, empty, and every GET request, whatever its path, is answered
    500 with the one error object. *)
Theorem missing_corpus_answers_500 :
  ∃ D, DataStore_init Missing = Ok D ∧
       ∀ (L : Library) (target : string),
         handle D (Request "GET" target)
         = Response 500
             (Json (PDict (error_obj "papers.json not found or empty"))).
Proof.
  eexists. split; [reflexivity|]. intros L target.
  unfold handle. rewrite bool_decide_eq_true_2 by done.
  unfold do_GET. by rewrite route_unavailable.
Qed.

(** A file that does not parse ends [DataStore.__init__] with the error of
    [json.load]: no store, and no server, comes to be. *)
Lemma unparseable_corpus_counterexample :
  DataStore_init Unparseable = Raise JSONDecodeError ∧
  ¬ ∃ D, DataStore_init Unparseable = Ok D.
Proof. split; [done|]. by intros [D HD]. Qed.

(** ** Requests and responses *)

Section HandlerClaims.
Context `{Library}.

(** Claim C6. With a corpus loaded, a GET on [/search] whose [q] is empty
    once trimmed is answered 400 with the message about the missing
    parameter, and one whose [q] is not empty but holds no token is
    answered 400 with [malformed query]; the two error objects differ. *)
Theorem search_query_errors (D : DataStore) (target v : string) :
  exists_ D = true →
  path (urlparse target) = "/search" →
  head (default [""] (parse_qs (query (urlparse target)) !! "q")) = Some v →
  (Str.strip v = "" →
   handle D (Request "GET" target)
   = Response 400 (Json (PDict (error_obj "missing query parameter 'q'")))) ∧
  (Str.strip v ≠ "" → tokenize (PStr (Str.strip v)) = Ok [] →
   handle D (Request "GET" target)
   = Response 400 (Json (PDict (error_obj "malformed query")))) ∧
  error_obj "missing query parameter 'q'" ≠ error_obj "malformed query".
Proof.
  intros HD Hpath Hq.
  assert (handle D (Request "GET" target) = do_GET D target) as ->.
  { unfold handle. by rewrite bool_decide_eq_true_2. }
  unfold do_GET. rewrite route_search, (query_q_head _ v) by done. simpl.
  split; [|split].
  - intros Hblank. by rewrite bool_decide_eq_true_2.
  - intros Hfull Htok. rewrite bool_decide_eq_false_2 by done.
    by rewrite Htok.
  - intros Heq. apply (f_equal (lookup "error")) in Heq.
    unfold error_obj in Heq. by rewrite !lookup_singleton_eq in Heq.
Qed.

(** Claim C9, as the code has it. With a corpus loaded, a GET whose path
    is none of the four endpoints is answered 404 with an error object, and
    a GET for a paper whose identifier is not in the index is answered 404
    with an error object that repeats the identifier under [arxiv_id]. A
    request with another method does not reach the handler of the module:
    the base class answers it 501. *)
Theorem not_found_responses (D : DataStore) (r : request) :
  exists_ D = true →
  (command r = "GET" →
   path (urlparse (target r)) ≠ "/papers" →
   path (urlparse (target r)) ≠ "/search" →
   path (urlparse (target r)) ≠ "/stats" →
   (¬ ∃ aid, path_parts (path (urlparse (target r))) = ["papers"; aid]) →
   handle D r = Response 404 (Json (PDict (error_obj "endpoint not found")))) ∧
  (∀ aid,
     command r = "GET" →
     path_parts (path (urlparse (target r))) = ["papers"; aid] →
     by_id D !! aid = None →
     handle D r
     = Response 404 (Json (PDict (<["arxiv_id" := PStr aid]>
                                   (error_obj "unknown paper id"))))) ∧
  (command r ≠ "GET" → handle D r = Response 501 ErrorPage).
Proof.
  intros HD. unfold handle, do_GET. split; [|split].
  - intros Hget H1 H2 H3 H4. rewrite bool_decide_eq_true_2 by done.
    by rewrite route_unknown_path.
  - intros aid Hget Hparts Hid. rewrite bool_decide_eq_true_2 by done.
    by rewrite (route_unknown_id D _ aid).
  - intros Hother. by rewrite bool_decide_eq_false_2.
Qed.

End HandlerClaims.

Lemma search_query_errors_witness :
  handle (H := Ref.lib) sample_store (Request "GET" "/search?q=%2C%2C%2C")
  = Response 400 (Json (PDict (error_obj "malformed query"))).
Proof.
  apply (proj1 (proj2 (search_query_errors (H := Ref.lib) sample_store
                         "/search?q=%2C%2C%2C" ",,,"
                         eq_refl eq_refl eq_refl))).
  - by vm_compute.
  - reflexivity.
Defined.

Lemma not_found_responses_witness :
  handle (H := Ref.lib) sample_store (Request "GET" "/papers/9999.99999")
  = Response 404 (Json (PDict (<["arxiv_id" := PStr "9999.99999"]>
                                (error_obj "unknown paper id")))).
Proof.
  apply (proj1 (proj2 (not_found_responses (H := Ref.lib) sample_store
                         (Request "GET" "/papers/9999.99999") eq_refl))
           "9999.99999"); reflexivity.
Defined.

(** A POST is answered 501, not 404. *)
Lemma other_method_counterexample :
  exists_ sample_store = true ∧
  status (handle (H := Ref.lib) sample_store (Request "POST" "/papers")) = 501%Z ∧
  status (handle (H := Ref.lib) sample_store (Request "POST" "/papers")) ≠ 404%Z.
Proof. by vm_compute. Qed.

(** ** The search loop *)

Lemma text_of_get (p : paper) (k s : string) :
  text_of p k = Some s → Py.get_or p k (PStr "") = PStr s.
Proof.
  unfold text_of. destruct (Py.get_or p k (PStr "")); try done. by intros [= ->].
Qed.

Lemma search_body_texts (terms : list string) results (p : paper) :
  Forall is_term terms → has_texts p →
  search_body terms results p
  = Ok (if bool_decide (0 < paper_score terms p)
        then results ++ [paper_hit terms p] else results).
Proof.
  intros Hterms [[a Ha] [b Hb]].
  unfold search_body, paper_hit, paper_score, title_of, abstract_of.
  rewrite Ha, Hb. simpl.
  rewrite (text_of_get _ _ _ Ha), (text_of_get _ _ _ Hb).
  rewrite (count_terms_strings _ a b); [done|done|..].
  - apply lookup_insert_eq.
  - rewrite lookup_insert_ne by done. apply lookup_insert_eq.
Qed.

Lemma search_loop_texts (terms : list string) (ps : list paper) acc :
  Forall is_term terms → Forall has_texts ps →
  for_each (search_body terms) ps acc
  = Ok (acc ++ (paper_hit terms <$> filter (λ p, 0 < paper_score terms p) ps)).
Proof.
  intros Hterms Hps. revert acc.
  induction Hps as [|p ps Hp _ IH]; intros acc; simpl.
  - by rewrite app_nil_r.
  - rewrite search_body_texts by done. simpl. rewrite IH.
    case_bool_decide.
    + rewrite filter_cons_True by done. by rewrite <-app_assoc.
    + by rewrite filter_cons_False.
Qed.

Lemma search_body_hits (terms : list string) results (p : paper) results' :
  search_body terms results p = Ok results' →
  Forall proper_hit results → Forall proper_hit results'.
Proof.
  unfold search_body. intros Hrun Hres.
  destruct (count_terms _ terms) as [[score wh]|e] eqn:Hcount; [|done].
  simpl in Hrun. injection Hrun as <-.
  case_bool_decide as Hpos; [|done].
  apply Forall_app. split; [done|]. repeat constructor.
  eexists _, score, wh. split; [reflexivity|].
  split; [by rewrite !lookup_insert_ne, lookup_insert_eq by done|].
  split; [done|].
  split; [by rewrite !lookup_insert_ne, lookup_insert_eq by done|].
  by apply (count_terms_flags _ _ _ _ Hcount).
Qed.

(** Claim C1, as the code has it. For a query term and a text, the
    counter returns the number of places where the term stands in the
    text, in any mix of cases, with no word character (a letter, a digit or
    the underscore) right before or right behind it; [count_terms] counts
    the title and the abstract each on its own and adds the two. [neural]
    is not found in [neuralnetwork] and is found once in
    [neural networks]. *)
Theorem count_whole_words (t title abstract : string) :
  is_term t →
  count_in t (PStr title) = Ok (occurrences Chr.is_word t title) ∧
  count_in t (PStr abstract) = Ok (occurrences Chr.is_word t abstract) ∧
  count_terms (<["title" := PStr title]> (<["abstract" := PStr abstract]> ∅)) [t]
  = Ok (occurrences Chr.is_word t title + occurrences Chr.is_word t abstract,
        (if bool_decide (0 < occurrences Chr.is_word t title)
         then ["title"] else [])
        ++ (if bool_decide (0 < occurrences Chr.is_word t abstract)
            then ["abstract"] else [])) ∧
  count_in "neural" (PStr "neuralnetwork") = Ok 0 ∧
  count_in "neural" (PStr "neural networks") = Ok 1.
Proof.
  intros Ht. repeat split; try by apply count_in_term.
  rewrite (count_terms_strings _ title abstract).
  - unfold match_score, matches_in, matches. simpl.
    by rewrite Nat.add_0_r, !orb_false_r.
  - by apply Forall_singleton.
  - apply lookup_insert_eq.
  - rewrite lookup_insert_ne by done. apply lookup_insert_eq.
Qed.

(** Claim C10. Whenever [count_terms] returns, its total is positive
    exactly when its list of fields is not empty; so every result of the
    search loop carries a positive score and a non-empty [matches_in]. *)
Theorem total_positive_iff_matches_in :
  (∀ (haystack : paper) (terms : list string) tot wh,
     count_terms haystack terms = Ok (tot, wh) → (0 < tot ↔ wh ≠ [])) ∧
  (∀ (terms : list string) (ps : list paper) results,
     search terms ps = Ok results → Forall proper_hit results).
Proof.
  split; [apply count_terms_flags|].
  intros terms ps results Hrun.
  by apply (for_each_inv (Forall proper_hit) _ _ _ _
              (search_body_hits terms)) in Hrun.
Qed.

Section SearchClaims.
Context `{Library}.

(** Claim C5. For a corpus whose titles and abstracts are strings and a
    list of query terms, the search loop returns, and its results are the
    papers whose score, the sum over the terms of the matches in the title
    and in the abstract, is positive, each once, in the order of the
    corpus; the handler answers 200 with this list. *)
Theorem search_results_in_corpus_order (terms : list string) (ps : list paper) :
  Forall is_term terms → Forall has_texts ps →
  search terms ps
  = Ok (paper_hit terms <$> filter (λ p, 0 < paper_score terms p) ps) ∧
  ∀ (D : DataStore) (target v : string),
    papers D = ps → ps ≠ [] →
    path (urlparse target) = "/search" →
    head (default [""] (parse_qs (query (urlparse target)) !! "q")) = Some v →
    tokenize (PStr (Str.strip v)) = Ok terms → terms ≠ [] →
    handle D (Request "GET" target)
    = Response 200
        (Json (PDict (<["query" := PStr (Str.strip v)]>
                     (<["results" :=
                          PList (paper_hit terms <$>
                                   filter (λ p, 0 < paper_score terms p) ps)]>
                        ∅)))).
Proof.
  intros Hterms Hps.
  assert (search terms ps
          = Ok (paper_hit terms <$> filter (λ p, 0 < paper_score terms p) ps))
    as Hsearch.
  { unfold search. by rewrite search_loop_texts. }
  split; [done|].
  intros D target v HD Hne Hpath Hq Htok Hterms'.
  assert (exists_ D = true) as Hex.
  { unfold exists_. rewrite HD. by destruct ps. }
  unfold handle. rewrite bool_decide_eq_true_2 by done.
  unfold do_GET. rewrite route_search by done.
  rewrite (query_q_head _ v) by done. simpl.
  case_bool_decide as Hblank.
  { rewrite Hblank in Htok. by injection Htok as <-. }
  rewrite Htok. simpl. rewrite bool_decide_eq_false_2 by done.
  by rewrite HD, Hsearch.
Qed.

End SearchClaims.

(** ** The aggregate *)

#[global] Instance key_le_trans : Transitive key_le.
Proof.
  intros [w1 n1] [w2 n2] [w3 n3]. unfold key_le. simpl.
  intros [?|[-> ?]] [?|[-> ?]]; try (left; lia).
  right. split; [done|]. by etrans.
Qed.

#[global] Instance key_le_total : Total key_le.
Proof.
  intros [w1 n1] [w2 n2]. unfold key_le. simpl.
  destruct (lt_eq_lt_dec n1 n2) as [[?| ->]|?]; [by right; left| |by left; left].
  destruct (String.le_total w1 w2); [left|right]; by right.
Qed.

#[global] Instance key_le_antisymm : AntiSymm (=) key_le.
Proof.
  intros [w1 n1] [w2 n2]. unfold key_le. simpl.
  intros [?|[-> ?]] [?|[? ?]]; try lia.
  f_equal. by apply (anti_symm String.le).
Qed.

Lemma word_count_snoc (w x : string) ws :
  word_count w (ws ++ [x])
  = word_count w ws + (if decide (x = w) then 1 else 0).
Proof.
  unfold word_count. rewrite filter_app, length_app. f_equal.
  destruct (decide (x = w)).
  - by rewrite filter_cons_True.
  - by rewrite filter_cons_False.
Qed.

Lemma count_entry_default n : default 0 (count_entry n) = n.
Proof. by destruct n. Qed.

Lemma bump_word_counts freq ws x :
  counts_of freq ws → counts_of (bump_word freq x) (ws ++ [x]).
Proof.
  intros Hf w. unfold bump_word. rewrite word_count_snoc.
  destruct (decide (x = w)) as [->|Hne].
  - rewrite lookup_insert_eq, Hf, count_entry_default.
    by replace (word_count w ws + 1) with (S (word_count w ws)) by lia.
  - rewrite lookup_insert_ne, Hf by done. by rewrite Nat.add_0_r.
Qed.

Lemma bump_words_counts freq ws0 ws :
  counts_of freq ws0 → counts_of (foldl bump_word freq ws) (ws0 ++ ws).
Proof.
  revert freq ws0. induction ws as [|x ws IH]; intros freq ws0 Hf; simpl.
  - by rewrite app_nil_r.
  - replace (ws0 ++ x :: ws) with ((ws0 ++ [x]) ++ ws) by by rewrite <-app_assoc.
    by apply IH, bump_word_counts.
Qed.

Lemma cat_loop_strings (cs : list string) cat :
  ∃ cat', for_each cat_body (PStr <$> cs) cat = Ok cat'.
Proof.
  revert cat. induction cs as [|c cs IH]; intros cat; [by eexists|].
  rewrite fmap_cons. cbn [for_each]. unfold cat_body at 1. simpl. apply IH.
Qed.

Lemma stats_body_ready (st : tally) (p : paper) ws0 :
  stats_ready p → counts_of (freq st) ws0 →
  ∃ st', stats_body st p = Ok st' ∧
         counts_of (freq st')
           (ws0 ++ WORD_RE_findall (Str.lower (abstract_of p))).
Proof.
  intros [[a Ha] [cs Hcs]] Hf. unfold stats_body, abstract_of.
  rewrite Ha, (text_of_get _ _ _ Ha), tokenize_str, Hcs. simpl.
  destruct (cat_loop_strings cs (cat st)) as [cat' ->]. simpl.
  eexists. split; [reflexivity|]. simpl. by apply bump_words_counts.
Qed.

Lemma stats_loop_ready (ps : list paper) (st : tally) ws0 :
  Forall stats_ready ps → counts_of (freq st) ws0 →
  ∃ st', for_each stats_body ps st = Ok st' ∧
         counts_of (freq st') (ws0 ++ corpus_words ps).
Proof.
  intros Hps. revert st ws0.
  induction Hps as [|p ps Hp _ IH]; intros st ws0 Hf.
  - exists st. by rewrite app_nil_r.
  - destruct (stats_body_ready st p ws0 Hp Hf) as (st1 & Hrun1 & Hf1).
    destruct (IH st1 _ Hf1) as (st' & Hrun & Hf').
    exists st'. cbn [for_each]. rewrite Hrun1. split; [done|].
    unfold corpus_words. rewrite bind_cons, app_assoc. done.
Qed.

Lemma StronglySorted_lookup {A} (R : relation A) (l : list A) i j x y :
  StronglySorted R l → i < j → l !! i = Some x → l !! j = Some y → R x y.
Proof.
  intros Hl. revert i j.
  induction Hl as [|a l _ IH Hall]; intros i j Hij Hi Hj; [done|].
  destruct j as [|j]; [lia|]. destruct i as [|i]; simpl in *.
  - injection Hi as ->. eapply Forall_forall; [exact Hall|].
    by eapply list_elem_of_lookup_2.
  - eapply (IH i j); [lia|done..].
Qed.

(** The ranking of a frequency map. *)
Lemma ranking_sorted (freq : gmap string nat) i j x y :
  let L := merge_sort key_le (map_to_list freq) in
  i < j → L !! i = Some x → L !! j = Some y → ranks_before x y.
Proof.
  intros L Hij Hi Hj.
  assert (key_le x y) as Hle.
  { eapply (StronglySorted_lookup key_le L i j); [|done..].
    apply StronglySorted_merge_sort; apply _. }
  assert (x.1 ≠ y.1) as Hne.
  { intros Heq.
    assert (NoDup L.*1) as Hnd.
    { unfold L. rewrite merge_sort_Permutation. apply NoDup_fst_map_to_list. }
    assert (i = j); [|lia].
    eapply NoDup_lookup; [exact Hnd| |].
    - by rewrite list_lookup_fmap, Hi.
    - by rewrite list_lookup_fmap, Hj, Heq. }
  destruct Hle as [?|[? ?]]; [by left|by right].
Qed.

(** Claim C7. For a corpus whose abstracts are strings and whose
    categories are lists of strings, [/stats] computes its object, and its
    [top_10_words] are the first ten entries (all of them when there are
    fewer) of the list that holds every word of the abstracts once, with
    the number of times the word occurs in the corpus, the higher
    frequency before the lower and, at one frequency, the smaller word
    before the larger. *)
Theorem stats_top_10_ranking (ps : list paper) :
  Forall stats_ready ps →
  ∃ (s : stats) (L : list (string * nat)),
    compute_stats ps = Ok s ∧
    top_10_words s = take 10 L ∧
    length (top_10_words s) = 10 `min` length L ∧
    (∀ w n, (w, n) ∈ L ↔ 0 < n ∧ n = word_count w (corpus_words ps)) ∧
    NoDup L.*1 ∧
    (∀ i j x y, i < j → L !! i = Some x → L !! j = Some y → ranks_before x y) ∧
    (∀ i j w1 w2 n,
       i < j →
       top_10_words s !! i = Some (w1, n) →
       top_10_words s !! j = Some (w2, n) →
       String.le w1 w2 ∧ w1 ≠ w2).
Proof.
  intros Hps.
  destruct (stats_loop_ready ps (Tally 0 ∅ ∅ []) [] Hps) as (st & Hrun & Hf).
  { intros w. simpl. by rewrite lookup_empty. }
  simpl in Hf.
  exists (Stats (length ps) (total_words st) (size (uniq st))
            (top_10_of (freq st)) (cat st)),
         (merge_sort key_le (map_to_list (freq st))).
  split; [unfold compute_stats; by rewrite Hrun|].
  split; [done|]. split; [apply length_take|].
  split; [|split; [|split]].
  - intros w n. rewrite merge_sort_Permutation, elem_of_map_to_list, Hf.
    destruct (word_count w (corpus_words ps)); simpl; [split; [done|lia]|].
    split; [intros [= <-]; split; [lia|done]|intros [_ ->]; done].
  - rewrite merge_sort_Permutation. apply NoDup_fst_map_to_list.
  - intros i j x y. apply ranking_sorted.
  - simpl. unfold top_10_of. intros i j w1 w2 n Hij Hi Hj.
    apply lookup_take_Some in Hi as [Hi _]. apply lookup_take_Some in Hj as [Hj _].
    destruct (ranking_sorted _ i j _ _ Hij Hi Hj) as [?|[_ ?]]; simpl in *; [lia|done].
Qed.

(** ** The claims on the sample corpus *)

Lemma is_term_neural : is_term "neural".
Proof. split; [done|]. by repeat constructor. Defined.

Lemma count_whole_words_witness :
  is_term "neural" ∧
  count_in "neural" (PStr "Neural networks")
  = Ok (occurrences Chr.is_word "neural" "Neural networks").
Proof.
  split; [exact is_term_neural|].
  exact (proj1 (count_whole_words "neural" "Neural networks" "" is_term_neural)).
Defined.

(** [neural2] holds the term with no letter next to it, and the pattern
    does not match: the digit is a word character. *)
Lemma letter_boundary_counterexample :
  is_term "neural" ∧
  occurrences Chr.is_letter "neural" "neural2" = 1 ∧
  count_in "neural" (PStr "neural2") = Ok 0.
Proof. split; [exact is_term_neural|]. by vm_compute. Qed.

Lemma abstract_stats_total_sentences_witness :
  abstract_text sample_paper = PStr "Deep learning. Deep networks!" ∧
  ∃ (st : paper) (segs : list string),
    abstract_stats sample_paper = Ok st ∧
    split_at_runs Chr.is_terminator
      (Str.chars "Deep learning. Deep networks!") (Str.chars <$> segs) ∧
    (∀ segs', split_at_runs Chr.is_terminator
                (Str.chars "Deep learning. Deep networks!") segs' →
              segs' = Str.chars <$> segs) ∧
    st !! "total_sentences"
      = Some (PNat (length (filter (λ g, Str.strip g ≠ "") segs))) ∧
    (Forall (λ c, Chr.is_terminator c = false)
       (Str.chars "Deep learning. Deep networks!") →
     Str.strip "Deep learning. Deep networks!" ≠ "" →
     st !! "total_sentences" = Some (PInt 1)).
Proof.
  split; [reflexivity|].
  exact (abstract_stats_total_sentences sample_paper
           "Deep learning. Deep networks!" eq_refl).
Defined.

Lemma sample_has_texts : Forall has_texts [sample_paper].
Proof. repeat constructor; by eexists. Defined.

Lemma sample_stats_ready : Forall stats_ready [sample_paper].
Proof.
  repeat constructor; [by eexists|]. by exists ["cs.LG"].
Defined.

Lemma total_positive_iff_matches_in_witness :
  count_terms (<["title" := PStr "Neural networks"]> ∅) ["neural"]
  = Ok (1, ["title"]) ∧
  (0 < 1 ↔ ["title"] ≠ ([] : list string)).
Proof.
  split; [reflexivity|].
  exact (proj1 total_positive_iff_matches_in
           (<["title" := PStr "Neural networks"]> ∅) ["neural"] 1 ["title"]
           eq_refl).
Defined.

Lemma search_results_in_corpus_order_witness :
  Forall is_term ["neural"] ∧ Forall has_texts [sample_paper] ∧
  search ["neural"] [sample_paper]
  = Ok (paper_hit ["neural"] <$>
          filter (λ p, 0 < paper_score ["neural"] p) [sample_paper]).
Proof.
  assert (Forall is_term ["neural"]) as Hterms.
  { constructor; [exact is_term_neural|constructor]. }
  split; [exact Hterms|]. split; [exact sample_has_texts|].
  exact (proj1 (search_results_in_corpus_order (H := Ref.lib)
                  ["neural"] [sample_paper] Hterms sample_has_texts)).
Defined.

Lemma stats_top_10_ranking_witness :
  Forall stats_ready [sample_paper] ∧
  ∃ (s : stats) (L : list (string * nat)),
    compute_stats [sample_paper] = Ok s ∧
    top_10_words s = take 10 L ∧
    length (top_10_words s) = 10 `min` length L ∧
    (∀ w n, (w, n) ∈ L
            ↔ 0 < n ∧ n = word_count w (corpus_words [sample_paper])) ∧
    NoDup L.*1 ∧
    (∀ i j x y, i < j → L !! i = Some x → L !! j = Some y → ranks_before x y) ∧
    (∀ i j w1 w2 n,
       i < j →
       top_10_words s !! i = Some (w1, n) →
       top_10_words s !! j = Some (w2, n) →
       String.le w1 w2 ∧ w1 ≠ w2).
Proof.
  split; [exact sample_stats_ready|].
  exact (stats_top_10_ranking [sample_paper] sample_stats_ready).
Defined.

(** The corpus of one paper with the abstract
    [Deep learning. Deep networks!]: four words, three of them distinct,
    [deep] first with frequency 2, and two sentences. *)
Example sample_stats :
  compute_stats [sample_paper]
  = Ok (Stats 1 4 3 [("deep", 2); ("learning", 1); ("networks", 1)]
          [(PStr "cs.LG", 1)]).
Proof. by vm_compute. Qed.

Example sample_sentences :
  sentences "Deep learning. Deep networks!" = ["Deep learning"; " Deep networks"].
Proof. by vm_compute. Qed.

(** Python's [sorted] and the merge sort of the model return the same
    list: a permutation sorted by [key_le] is unique. *)
Lemma sorted_unique (items L : list (string * nat)) :
  L ≡ₚ items → StronglySorted key_le L → L = merge_sort key_le items.
Proof.
  intros Hperm Hsorted. apply (StronglySorted_unique key_le); [done| |].
  - apply StronglySorted_merge_sort; apply _.
  - by rewrite merge_sort_Permutation.
Qed.

(** * Further properties *)

(** ** The index of the store *)

Lemma index_body_ok (st : DataStore) (p : pyval) (st' : DataStore) :
  index_body st p = Ok st' →
  ∃ d, p = PDict d ∧ papers st' = papers st ++ [d] ∧
       (∀ a, by_id st' !! a
             = if filed_under a d then Some d else by_id st !! a).
Proof.
  destruct p as [| | | | |d]; try done. simpl. intros [= <-].
  exists d. split; [done|]. split; [done|]. intros a. simpl.
  unfold filed_under, index_key.
  destruct (Py.or (Py.get d "arxiv_id") (Py.get d "id")) as [| | |s| |]; try done.
  case_bool_decide as Hs.
  - subst. apply lookup_insert_eq.
  - by apply lookup_insert_ne.
Qed.

Lemma index_loop_ok (l : list pyval) (st st' : DataStore) :
  for_each index_body l st = Ok st' →
  ∃ ps, l = PDict <$> ps ∧ papers st' = papers st ++ ps ∧
        (∀ a, by_id st' !! a
              = from_option Some (by_id st !! a)
                  (last (filter (λ p, filed_under a p = true) ps))).
Proof.
  revert st. induction l as [|p l IH]; intros st; simpl.
  - intros [= <-]. exists []. by rewrite app_nil_r.
  - destruct (index_body st p) as [st1|e] eqn:Hp; [|done]. simpl.
    intros Hrun.
    destruct (index_body_ok _ _ _ Hp) as (d & -> & Hps1 & Hid1).
    destruct (IH _ Hrun) as (ps & -> & Hps & Hid).
    exists (d :: ps). split; [done|].
    split; [by rewrite Hps, Hps1, <-app_assoc|].
    intros a. rewrite Hid, Hid1.
    destruct (filed_under a d) eqn:Hd.
    + rewrite filter_cons_True by done.
      destruct (filter _ ps) as [|q qs] eqn:Hf; [done|].
      rewrite last_cons_cons.
      destruct (last (q :: qs)) as [x|] eqn:Hl; [done|].
      by apply last_None in Hl.
    + by rewrite filter_cons_False by by rewrite Hd.
Qed.





(** Every store the constructor returns has a sound index. *)
Lemma DataStore_init_sound (f : file) (D : DataStore) :
  DataStore_init f = Ok D → index_sound D.
Proof.
  unfold DataStore_init. destruct (load_json f) as [v|e]; [|done]. simpl.
  destruct (Py.iter _) as [items|e]; [|done]. simpl.
  intros Hrun. apply (for_each_inv index_sound) in Hrun; [done| |].
  - intros st p st' Hp Hst.
    destruct p as [| | | | |d]; try done.
    destruct (index_body_dict st d) as (st1 & Hd & _ & Hsound).
    rewrite Hd in Hp. injection Hp as <-. auto.
  - intros a p. simpl. by rewrite lookup_empty.
Qed.

Lemma DataStore_init_index (f : file) (D : DataStore) (a : string) :
  DataStore_init f = Ok D →
  by_id D !! a = last (filter (λ p, filed_under a p = true) (papers D)).
Proof.
  unfold DataStore_init. destruct (load_json f) as [v|e]; [|done]. simpl.
  destruct (Py.iter _) as [items|e]; [|done]. simpl.
  intros (ps & _ & -> & Hid)%index_loop_ok.
  rewrite Hid. simpl. by destruct (last _).
Qed.

(** The index of a store the constructor returns is read off its
    sequence of papers: under an identifier stands the last paper filed
    under it, and nothing when no paper is. *)
Theorem index_holds_last_filed (f : file) (D : DataStore) (a : string) :
  DataStore_init f = Ok D →
  by_id D !! a = last (filter (λ p, filed_under a p = true) (papers D)).
Proof. apply DataStore_init_index. Qed.

Lemma index_holds_last_filed_witness :
  by_id sample_store !! "2301.00001"
  = last (filter (λ p, filed_under "2301.00001" p = true) (papers sample_store)).
Proof.
  exact (index_holds_last_filed (Holds (PList [PDict sample_paper]))
           sample_store "2301.00001" eq_refl).
Defined.

(** ** The listing and the detail of a paper *)

Lemma shown_id_filed (p : paper) (a : string) :
  filed_under a p = true → shown_id p = PStr a.
Proof.
  unfold filed_under, index_key, shown_id, Py.or.
  destruct (Py.truthy (Py.get p "arxiv_id")) eqn:Hid.
  - destruct (Py.get p "arxiv_id"); try done. by intros ->%bool_decide_eq_true.
  - unfold Py.get, Py.get_or. destruct (p !! "id") as [v|]; simpl; [|done].
    destruct v; try done. by intros ->%bool_decide_eq_true.
Qed.

Lemma filed_shown_id (p : paper) (a : string) :
  shown_id p = PStr a → a ≠ "" → filed_under a p = true.
Proof.
  unfold filed_under, index_key, shown_id, Py.or.
  destruct (Py.truthy (Py.get p "arxiv_id")) eqn:Hid.
  - intros -> _. by apply bool_decide_eq_true.
  - unfold Py.get, Py.get_or. destruct (p !! "id") as [v|]; simpl.
    + intros -> _. by apply bool_decide_eq_true.
    + by intros [= <-].
Qed.


Lemma last_filter_Some {A} (P : A → Prop) `{∀ x, Decision (P x)} (l : list A) x :
  last (filter P l) = Some x → x ∈ l ∧ P x.
Proof.
  intros Hx%last_Some_elem_of. by apply list_elem_of_filter in Hx as [? ?].
Qed.

Lemma last_filter_elem {A} (P : A → Prop) `{∀ x, Decision (P x)} (l : list A) x :
  x ∈ l → P x → is_Some (last (filter P l)).
Proof.
  intros Hx HP. apply last_is_Some. intros Hnil.
  assert (x ∈ filter P l) as Hin by by apply list_elem_of_filter.
  rewrite Hnil in Hin. by apply elem_of_nil in Hin.
Qed.

Section Endpoints.
Context `{Library}.

Lemma do_GET_route (D : DataStore) (target : string) :
  do_GET D target
  = match route D target with
    | Ok r => r
    | Raise e => internal_error e
    end.
Proof. done. Qed.

Lemma handle_GET (D : DataStore) (target : string) :
  handle D (Request "GET" target) = do_GET D target.
Proof. unfold handle. by rewrite bool_decide_eq_true_2. Qed.



Lemma route_stats (D : DataStore) (target : string) :
  exists_ D = true →
  path (urlparse target) = "/stats" →
  route D target
  = (out ← compute_stats (papers D); Ok (Response 200 (StatsJson out))).
Proof.
  intros HD Hpath. unfold route. by rewrite HD, Hpath, path_parts_stats.
Qed.



(** In a store the constructor returns, an identifier the listing shows
    that is a non-empty string is in the index, so a GET for it does not
    end in [unknown paper id]; the paper found reports the same
    identifier. *)
Theorem listed_ids_resolve (f : file) (D : DataStore) (p : paper) (a : string) :
  DataStore_init f = Ok D →
  p ∈ papers D → shown_id p = PStr a → a ≠ "" →
  ∃ q, by_id D !! a = Some q ∧ q ∈ papers D ∧ shown_id q = PStr a.
Proof.
  intros Hinit Hp Hshown Ha.
  pose proof (DataStore_init_index f D a Hinit) as Hlast.
  destruct (last_filter_elem (λ p, filed_under a p = true) (papers D) p)
    as [q Hq]; [done|by apply filed_shown_id|].
  exists q. rewrite Hlast. split; [done|].
  apply last_filter_Some in Hq as [? ?]. split; [done|]. by apply shown_id_filed.
Qed.

End Endpoints.


Lemma sample_store_init :
  DataStore_init (Holds (PList [PDict sample_paper])) = Ok sample_store.
Proof. by vm_compute. Defined.


Lemma listed_ids_resolve_witness :
  ∃ q, by_id sample_store !! "2301.00001" = Some q ∧
       q ∈ papers sample_store ∧ shown_id q = PStr "2301.00001".
Proof.
  apply (listed_ids_resolve _ sample_store sample_paper "2301.00001"
           sample_store_init).
  - by apply list_elem_of_singleton.
  - reflexivity.
  - done.
Defined.

(** ** The statuses of the handler *)

Section Statuses.
Context `{Library}.

Lemma route_status (D : DataStore) (target : string) (r : response) :
  route D target = Ok r →
  status r = 200%Z ∨ status r = 400%Z ∨ status r = 404%Z ∨ status r = 500%Z.
Proof.
  unfold route, send_json.
  repeat (case_match; simplify_eq/=; try (intros [= <-]; simpl; tauto));
    try done;
    repeat (match goal with
            | |- context [?m ≫= _] => destruct m; simpl
            end;
            repeat (case_match; simplify_eq/=);
            try done; try (intros [= <-]; simpl; tauto)).
Qed.

(** Every answer of [do_GET] carries one of the statuses 200, 400, 404
    and 500, so the line [send_json] logs always names the status with its
    reason phrase, never with the bare number of the default. *)
Theorem do_GET_statuses (D : DataStore) (target : string) :
  status (do_GET D target) ∈ [200%Z; 400%Z; 404%Z; 500%Z] ∧
  status_msg (status (do_GET D target))
  ∈ ["200 OK"; "400 Bad Request"; "404 Not Found"; "500 Internal Server Error"].
Proof.
  assert (status (do_GET D target) = 200%Z ∨ status (do_GET D target) = 400%Z
          ∨ status (do_GET D target) = 404%Z ∨ status (do_GET D target) = 500%Z)
    as Hst.
  { unfold do_GET. destruct (route D target) as [r|e] eqn:Hr.
    - by apply route_status in Hr.
    - simpl. tauto. }
  destruct Hst as [-> |[-> |[-> | ->]]]; split;
    rewrite !elem_of_cons; tauto.
Qed.

End Statuses.

(** ** Loops that raise *)

Lemma for_each_raise_kind {A S : Type} (P : exn → Prop)
    (body : S → A → result S) l s e :
  (∀ s x e, body s x = Raise e → P e) →
  for_each body l s = Raise e → P e.
Proof.
  intros Hbody. revert s.
  induction l as [|x l IH]; intros s; simpl; [done|].
  destruct (body s x) as [s1|e1] eqn:Hx; simpl; [apply IH|].
  intros [= <-]. eauto.
Qed.

Lemma for_each_raises {A S : Type} (body : S → A → result S) l x s :
  x ∈ l → (∀ s, ∃ e, body s x = Raise e) → ∃ e, for_each body l s = Raise e.
Proof.
  intros Hx Hbody. revert s.
  induction l as [|y l IH]; intros s; [by apply elem_of_nil in Hx|].
  simpl. apply elem_of_cons in Hx as [<-|Hx].
  - destruct (Hbody s) as [e ->]. by exists e.
  - destruct (body s y) as [s1|e1]; simpl; [by apply IH|by exists e1].
Qed.

Lemma count_terms_body_raise (h : paper) st t e :
  count_terms_body h st t = Raise e → e = TypeError.
Proof.
  unfold count_terms_body, count_in.
  repeat (case_match; simplify_eq/=); try done; by intros [= <-].
Qed.

Lemma count_terms_raise (h : paper) terms e :
  count_terms h terms = Raise e → e = TypeError.
Proof.
  unfold count_terms.
  destruct (for_each _ terms _) as [st|e1] eqn:Hloop; [done|].
  intros [= <-].
  by apply (for_each_raise_kind (λ e, e = TypeError)) in Hloop;
    [|apply count_terms_body_raise].
Qed.

(** A field that is there and is not a string stops the first round. *)
Lemma count_terms_unreadable (h : paper) t terms :
  (∃ v, h !! "title" = Some v ∧ ∀ s, v ≠ PStr s)
  ∨ (∃ v, h !! "abstract" = Some v ∧ ∀ s, v ≠ PStr s) →
  ∃ e, count_terms h (t :: terms) = Raise e.
Proof.
  intros Hbad. unfold count_terms. simpl.
  assert (∃ e, count_terms_body h (Counting 0 false false) t = Raise e)
    as [e ->]; [|by exists e].
  unfold count_terms_body.
  destruct Hbad as [(v & -> & Hv)|(v & Hv & Hs)].
  - exists TypeError. destruct v; try done. by destruct (Hv s).
  - rewrite Hv. destruct (h !! "title") as [w|]; simpl.
    + destruct (count_in t w) as [c|e]; simpl; [|by exists e].
      exists TypeError. destruct v; try done. by destruct (Hs s).
    + exists TypeError. destruct v; try done. by destruct (Hs s).
Qed.

Lemma text_of_None (p : paper) (k : string) :
  text_of p k = None → ∀ s, Py.get_or p k (PStr "") ≠ PStr s.
Proof.
  unfold text_of. intros Hk s Hs. by rewrite Hs in Hk.
Qed.

Section Unreadable.
Context `{Library}.

(** One paper whose title or abstract is not a string breaks the search
    for every query: with at least one term in [q], the loop raises
    [TypeError] and the handler answers 500, whatever the other papers
    hold. *)
Theorem search_unreadable_paper (D : DataStore) (target v : string)
    (terms : list string) (p : paper) :
  path (urlparse target) = "/search" →
  head (default [""] (parse_qs (query (urlparse target)) !! "q")) = Some v →
  tokenize (PStr (Str.strip v)) = Ok terms → terms ≠ [] →
  p ∈ papers D →
  text_of p "title" = None ∨ text_of p "abstract" = None →
  search terms (papers D) = Raise TypeError ∧
  handle D (Request "GET" target) = internal_error TypeError.
Proof.
  intros Hpath Hq Htok Hterms Hp Hbad.
  assert (search terms (papers D) = Raise TypeError) as Hsearch.
  { unfold search.
    destruct (for_each_raises (search_body terms) (papers D) p [] Hp) as [e He].
    - intros acc. unfold search_body.
      destruct terms as [|t terms]; [done|].
      destruct (count_terms_unreadable
                  (<["title" := Py.get_or p "title" (PStr "")]>
                     (<["abstract" := Py.get_or p "abstract" (PStr "")]> ∅))
                  t terms) as [e ->]; [|by exists e].
      destruct Hbad as [Hbad|Hbad]; [left|right]; eexists.
      + split; [apply lookup_insert_eq|]. by apply text_of_None.
      + split; [by rewrite lookup_insert_ne, lookup_insert_eq by done|].
        by apply text_of_None.
    - rewrite He. f_equal.
      apply (for_each_raise_kind (λ e, e = TypeError)) in He; [done|].
      intros acc q e'. unfold search_body.
      destruct (count_terms _ terms) as [[??]|e1] eqn:Hc; [done|].
      intros [= <-]. by apply count_terms_raise in Hc. }
  split; [done|].
  assert (exists_ D = true) as HD.
  { unfold exists_. destruct (papers D); [by apply elem_of_nil in Hp|done]. }
  rewrite handle_GET, do_GET_route, route_search by done.
  rewrite (query_q_head _ v) by done. simpl.
  case_bool_decide as Hblank.
  { rewrite Hblank in Htok. by injection Htok as <-. }
  rewrite Htok. simpl. rewrite bool_decide_eq_false_2 by done.
  by rewrite Hsearch.
Qed.

End Unreadable.

Lemma search_unreadable_paper_witness :
  handle (H := Ref.lib) (MkDataStore [sample_paper; unreadable_paper] ∅)
    (Request "GET" "/search?q=deep")
  = internal_error (H := Ref.lib) TypeError.
Proof.
  apply (proj2 (search_unreadable_paper (H := Ref.lib)
                  (MkDataStore [sample_paper; unreadable_paper] ∅)
                  "/search?q=deep" "deep" ["deep"] unreadable_paper
                  eq_refl eq_refl eq_refl ltac:(done)
                  ltac:(apply elem_of_cons; right; by apply list_elem_of_singleton)
                  (or_introl eq_refl))).
Defined.

(** ** The totals of [/stats] *)

Lemma size_list_to_set_dups (ws : list string) :
  size (list_to_set ws : gset string) = length (remove_dups ws).
Proof.
  rewrite <-(size_list_to_set (C := gset string) (remove_dups ws))
    by apply NoDup_remove_dups.
  f_equal. apply set_eq. intros w.
  by rewrite !elem_of_list_to_set, elem_of_remove_dups.
Qed.

Lemma length_remove_dups_le (ws : list string) :
  length (remove_dups ws) ≤ length ws.
Proof.
  induction ws as [|w ws IH]; simpl; [done|].
  case_decide; simpl; lia.
Qed.



(** [for c in ...: cat[c] = cat.get(c, 0) + 1] over a list of strings. *)
Lemma cat_loop_names (cs : list string) cat :
  for_each cat_body (PStr <$> cs) cat
  = Ok (foldl (λ cat c, bump_cat (PStr c) cat) cat cs).
Proof.
  revert cat. induction cs as [|c cs IH]; intros cat; [done|].
  rewrite fmap_cons. cbn [for_each]. unfold cat_body at 1. simpl. apply IH.
Qed.

Lemma category_names_ready (p : paper) (cs : list string) :
  Py.get_or p "categories" (PList []) = PList (PStr <$> cs) →
  category_names p = cs.
Proof.
  unfold category_names, categories_of. intros ->.
  induction cs as [|c cs IH]; [done|]. csimpl. by rewrite IH.
Qed.

Lemma bind_Ok {A B : Type} (a : A) (f : A → result B) : (Ok a ≫= f) = f a.
Proof. done. Qed.

(** One round and the whole loop of [/stats] in closed form. *)
Lemma stats_body_closed (st : tally) (p : paper) :
  stats_ready p →
  stats_body st p
  = Ok (Tally (total_words st
               + length (WORD_RE_findall (Str.lower (abstract_of p))))
          (uniq st ∪ list_to_set (WORD_RE_findall (Str.lower (abstract_of p))))
          (foldl bump_word (freq st)
             (WORD_RE_findall (Str.lower (abstract_of p))))
          (foldl (λ cat c, bump_cat (PStr c) cat) (cat st) (category_names p))).
Proof.
  intros [[a Ha] [cs Hcs]]. unfold stats_body, abstract_of.
  rewrite Ha, (text_of_get _ _ _ Ha), tokenize_str, Hcs. simpl.
  by rewrite cat_loop_names, (category_names_ready p cs Hcs).
Qed.

Lemma stats_loop_closed (ps : list paper) (st : tally) :
  Forall stats_ready ps →
  for_each stats_body ps st
  = Ok (Tally (total_words st + length (corpus_words ps))
          (uniq st ∪ list_to_set (corpus_words ps))
          (foldl bump_word (freq st) (corpus_words ps))
          (foldl (λ cat c, bump_cat (PStr c) cat) (cat st)
             (corpus_categories ps))).
Proof.
  intros Hps. revert st.
  induction Hps as [|p ps Hp _ IH]; intros st.
  - simpl. rewrite Nat.add_0_r, (right_id_L ∅ (∪)). by destruct st.
  - cbn [for_each]. rewrite stats_body_closed, bind_Ok, IH by done.
    unfold corpus_words, corpus_categories. rewrite !bind_cons. cbn [total_words uniq freq cat].
    rewrite !foldl_app, length_app, list_to_set_app_L.
    f_equal. f_equal; [lia|by rewrite (assoc_L (∪))].
Qed.


Section StatsEndpoint.
Context `{Library}.


End StatsEndpoint.

(** ** The category counter *)

Lemma key_eq_str (k : pyval) (c : string) :
  Py.key_eq k (PStr c) = true → k = PStr c.
Proof. destruct k; simpl; try done. by intros ->%bool_decide_eq_true. Qed.

Lemma cat_get_bump (c c' : string) (cat : list (pyval * nat)) :
  cat_get (PStr c') (bump_cat (PStr c) cat)
  = if decide (c = c') then Some (default 0 (cat_get (PStr c) cat) + 1)
    else cat_get (PStr c') cat.
Proof.
  induction cat as [|[k n] cat IH]; simpl.
  - by repeat case_decide; try case_bool_decide.
  - destruct (Py.key_eq k (PStr c)) eqn:Hk; simpl.
    + apply key_eq_str in Hk as ->. simpl.
      by repeat case_decide; try case_bool_decide.
    + rewrite IH. destruct (decide (c = c')) as [<-|Hne]; [by rewrite Hk|done].
Qed.

Lemma sum_bump_cat (c : pyval) (cat : list (pyval * nat)) :
  sum_list (bump_cat c cat).*2 = S (sum_list cat.*2).
Proof.
  induction cat as [|[k n] cat IH]; [done|]. cbn [bump_cat].
  destruct (Py.key_eq k c); csimpl; [lia|]. rewrite IH. lia.
Qed.

Lemma bump_cats_counts (cs0 cs : list string) (cat : list (pyval * nat)) :
  (∀ c, cat_get (PStr c) cat = count_entry (word_count c cs0)) →
  let cat' := foldl (λ cat c, bump_cat (PStr c) cat) cat cs in
  (∀ c, cat_get (PStr c) cat' = count_entry (word_count c (cs0 ++ cs))) ∧
  sum_list cat'.*2 = sum_list cat.*2 + length cs.
Proof.
  revert cs0 cat. induction cs as [|x cs IH]; intros cs0 cat Hcat; simpl.
  - by rewrite app_nil_r, Nat.add_0_r.
  - replace (cs0 ++ x :: cs) with ((cs0 ++ [x]) ++ cs) by by rewrite <-app_assoc.
    destruct (IH (cs0 ++ [x]) (bump_cat (PStr x) cat)) as [Hget Hsum].
    + intros c. rewrite cat_get_bump, word_count_snoc, !Hcat.
      destruct (decide (x = c)) as [->|?].
      * rewrite count_entry_default.
        by replace (word_count c cs0 + 1) with (S (word_count c cs0)) by lia.
      * by rewrite Nat.add_0_r.
    + split; [done|]. rewrite Hsum, sum_bump_cat. lia.
Qed.

(** For a corpus [/stats] can read, the distribution gives every category
    the number of times it is listed in the corpus, a paper that lists it
    twice counting twice, has no entry for a name no paper lists, and its
    counts add up to the number of listed categories. *)
Theorem stats_categories (ps : list paper) :
  Forall stats_ready ps →
  ∃ s : stats,
    compute_stats ps = Ok s ∧
    (∀ c, cat_get (PStr c) (category_distribution s)
          = count_entry (word_count c (corpus_categories ps))) ∧
    sum_list (category_distribution s).*2 = length (corpus_categories ps).
Proof.
  intros Hps. eexists. unfold compute_stats.
  rewrite stats_loop_closed by done. simpl. split; [reflexivity|]. simpl.
  by apply (bump_cats_counts [] (corpus_categories ps) []).
Qed.

Lemma stats_categories_witness :
  ∃ s : stats,
    compute_stats [sample_paper] = Ok s ∧
    (∀ c, cat_get (PStr c) (category_distribution s)
          = count_entry (word_count c (corpus_categories [sample_paper]))) ∧
    sum_list (category_distribution s).*2
    = length (corpus_categories [sample_paper]).
Proof. exact (stats_categories [sample_paper] sample_stats_ready). Defined.


(** ** Papers [/stats] cannot read *)

Lemma tokenize_raise (v : pyval) e : tokenize v = Raise e → e = AttributeError.
Proof. unfold tokenize. destruct (Py.or v _); try done; by intros [= <-]. Qed.

Lemma iter_raise (v : pyval) e : Py.iter v = Raise e → e = TypeError.
Proof. destruct v; try done; by intros [= <-]. Qed.

Lemma cat_body_raise cat c e : cat_body cat c = Raise e → e = TypeError.
Proof. unfold cat_body. destruct (Py.hashable c); [done|]. by intros [= <-]. Qed.

Lemma stats_body_raise (st : tally) (p : paper) e :
  stats_body st p = Raise e → e = AttributeError ∨ e = TypeError.
Proof.
  unfold stats_body.
  destruct (tokenize _) as [ws|e1] eqn:Htok; simpl.
  2:{ intros [= <-]. left. by apply tokenize_raise in Htok. }
  destruct (Py.iter _) as [cs|e1] eqn:Hit; simpl.
  2:{ intros [= <-]. right. by apply iter_raise in Hit. }
  destruct (for_each cat_body cs (cat st)) as [cat'|e1] eqn:Hcat; simpl; [done|].
  intros [= <-]. right.
  by apply (for_each_raise_kind (λ e, e = TypeError)) in Hcat;
    [|apply cat_body_raise].
Qed.

Section StatsUnreadable.
Context `{Library}.

(** One paper whose abstract is a true value that is not a string breaks
    [/stats]: the handler answers 500 with an [AttributeError] or a
    [TypeError], whatever the other papers hold. *)
Theorem stats_unreadable_paper (D : DataStore) (target : string) (p : paper) :
  path (urlparse target) = "/stats" →
  p ∈ papers D →
  (∀ s, abstract_text p ≠ PStr s) →
  ∃ e, (e = AttributeError ∨ e = TypeError) ∧
       handle D (Request "GET" target) = internal_error e.
Proof.
  intros Hpath Hp Hbad.
  assert (exists_ D = true) as HD.
  { unfold exists_. destruct (papers D); [by apply elem_of_nil in Hp|done]. }
  destruct (for_each_raises stats_body (papers D) p (Tally 0 ∅ ∅ []) Hp)
    as [e He].
  - intros st. exists AttributeError. unfold stats_body, tokenize.
    fold (abstract_text p).
    destruct (abstract_text p) as [| | |s| |]; try done. by destruct (Hbad s).
  - exists e. split.
    + by apply (for_each_raise_kind
                  (λ e, e = AttributeError ∨ e = TypeError)) in He;
        [|apply stats_body_raise].
    + rewrite handle_GET, do_GET_route, route_stats by done.
      unfold compute_stats. by rewrite He.
Qed.

End StatsUnreadable.

Lemma stats_unreadable_paper_witness :
  ∃ e, (e = AttributeError ∨ e = TypeError) ∧
       handle (H := Ref.lib) (MkDataStore [sample_paper; numbered_paper] ∅)
         (Request "GET" "/stats")
       = internal_error (H := Ref.lib) e.
Proof.
  apply (stats_unreadable_paper (H := Ref.lib)
           (MkDataStore [sample_paper; numbered_paper] ∅)
           "/stats" numbered_paper eq_refl).
  - apply elem_of_cons. right. apply list_elem_of_singleton. reflexivity.
  - intros s. vm_compute. discriminate.
Defined.

(** ** The entry point *)



(** ** The term counter, composed *)

Lemma count_terms_body_add (h : paper) st d t st' :
  count_terms_body h st t = Ok st' →
  count_terms_body h (counting_add st d) t = Ok (counting_add st' d).
Proof.
  unfold count_terms_body, counting_add.
  destruct (h !! "title") as [v|]; destruct (h !! "abstract") as [v'|]; simpl.
  - destruct (count_in t v) as [c|e]; [|done]. simpl.
    destruct (count_in t v') as [c'|e]; [|done]. simpl. intros [= <-]. simpl.
    do 2 f_equal; [lia|by destruct (in_title st), (bool_decide (0 < c)), (in_title d)
                      |by destruct (in_abs st), (bool_decide (0 < c')), (in_abs d)].
  - destruct (count_in t v) as [c|e]; [|done]. simpl. intros [= <-]. simpl.
    do 2 f_equal; [lia|by destruct (in_title st), (bool_decide (0 < c)), (in_title d)].
  - destruct (count_in t v') as [c'|e]; [|done]. simpl. intros [= <-]. simpl.
    do 2 f_equal; [lia|by destruct (in_abs st), (bool_decide (0 < c')), (in_abs d)].
  - by intros [= <-].
Qed.

Lemma count_terms_loop_add (h : paper) terms st d st' :
  for_each (count_terms_body h) terms st = Ok st' →
  for_each (count_terms_body h) terms (counting_add st d)
  = Ok (counting_add st' d).
Proof.
  revert st. induction terms as [|t terms IH]; intros st; simpl.
  - by intros [= <-].
  - destruct (count_terms_body h st t) as [st1|e] eqn:Ht; [|done]. simpl.
    intros Hrun. rewrite (count_terms_body_add _ _ _ _ _ Ht). simpl. by apply IH.
Qed.

Lemma for_each_app {A S : Type} (body : S → A → result S) l1 l2 s :
  for_each body (l1 ++ l2) s = (s1 ← for_each body l1 s; for_each body l2 s1).
Proof.
  revert s. induction l1 as [|x l1 IH]; intros s; simpl; [done|].
  destruct (body s x); simpl; [apply IH|done].
Qed.

(** The counter adds up over the terms: counting two lists of terms one
    after the other gives the sum of the two totals and the fields either
    list matched in; so a term that is repeated counts once more each
    time, and the order of the terms does not change the total. *)
Theorem count_terms_app (h : paper) (ts1 ts2 : list string) n1 w1 n2 w2 :
  count_terms h ts1 = Ok (n1, w1) →
  count_terms h ts2 = Ok (n2, w2) →
  count_terms h (ts1 ++ ts2) = Ok (n1 + n2, fields_union w1 w2) ∧
  count_terms h (ts2 ++ ts1) = Ok (n2 + n1, fields_union w1 w2).
Proof.
  unfold count_terms.
  destruct (for_each _ ts1 _) as [st1|e] eqn:H1; [|done].
  destruct (for_each _ ts2 _) as [st2|e] eqn:H2; [|done].
  simpl. intros [= <- <-] [= <- <-].
  rewrite !for_each_app, H1, H2. simpl.
  destruct st1 as [a1 b1 c1], st2 as [a2 b2 c2].
  apply (count_terms_loop_add _ _ _ (Counting a1 b1 c1)) in H2.
  apply (count_terms_loop_add _ _ _ (Counting a2 b2 c2)) in H1.
  unfold counting_add in H1, H2. simpl in H1, H2. rewrite H1, H2. simpl.
  unfold fields_union.
  split; f_equal; (f_equal; [lia|]); destruct b1, b2, c1, c2; by vm_compute.
Qed.

Lemma count_terms_app_witness :
  count_terms (<["title" := PStr "Neural networks"]> ∅) (["neural"] ++ ["neural"])
  = Ok (1 + 1, fields_union ["title"] ["title"]).
Proof.
  exact (proj1 (count_terms_app (<["title" := PStr "Neural networks"]> ∅)
                  ["neural"] ["neural"] 1 ["title"] 1 ["title"]
                  eq_refl eq_refl)).
Defined.

(** ** The case of the letters *)













(** ** The three numbers of [abstract_stats] *)

Lemma letter_plain (c : ascii) :
  Chr.is_letter c = true → Chr.is_space c = false ∧ Chr.is_terminator c = false.
Proof. by destruct c as [[] [] [] [] [] [] [] []]. Qed.

Lemma lower_letter_inv (c : ascii) :
  Chr.is_letter (Chr.lower c) = true → Chr.is_letter c = true.
Proof. by destruct c as [[] [] [] [] [] [] [] []]. Qed.

Lemma lstrip_keeps (l : list ascii) c :
  c ∈ l → Chr.is_space c = false → c ∈ Str.lstrip l.
Proof.
  induction l as [|x l IH]; [done|]. simpl. intros Hin Hc.
  destruct (Chr.is_space x) eqn:Hx; [|done].
  apply elem_of_cons in Hin as [->|Hin]; [congruence|auto].
Qed.

Lemma rstrip_keeps (l : list ascii) c :
  c ∈ l → Chr.is_space c = false → c ∈ Str.rstrip l.
Proof.
  intros Hin Hc. unfold Str.rstrip.
  apply elem_of_reverse, lstrip_keeps; [by apply elem_of_reverse|done].
Qed.

(** A text with a character that is no blank is not empty once stripped. *)
Lemma strip_keeps (g : string) c :
  c ∈ Str.chars g → Chr.is_space c = false → Str.strip g ≠ "".
Proof.
  intros Hin Hc Hstrip.
  assert (c ∈ Str.rstrip (Str.lstrip (Str.chars g))) as Hkept.
  { apply rstrip_keeps; [|done]. by apply lstrip_keeps. }
  unfold Str.strip in Hstrip.
  apply (f_equal Str.chars) in Hstrip. rewrite chars_of_chars in Hstrip.
  rewrite Hstrip in Hkept. by apply elem_of_nil in Hkept.
Qed.

Lemma split_at_runs_covers cls (l : list ascii) segs c :
  split_at_runs cls l segs → c ∈ l → cls c = false →
  ∃ seg, seg ∈ segs ∧ c ∈ seg.
Proof.
  induction 1 as [seg Hseg|seg r rest segs Hseg Hr Hall Hrest Hrec IH];
    intros Hin Hc.
  - exists seg. split; [by left|done].
  - apply elem_of_app in Hin as [Hin|Hin].
    { exists seg. split; [by left|done]. }
    apply elem_of_app in Hin as [Hin|Hin].
    { apply (proj1 (Forall_forall _ _) Hall) in Hin. congruence. }
    destruct (IH Hin Hc) as (seg' & ? & ?). exists seg'. split; [by right|done].
Qed.

Lemma split_at_runs_length cls (l : list ascii) segs :
  split_at_runs cls l segs →
  length segs ≤ S (length (filter (λ c, cls c = true) l)).
Proof.
  induction 1 as [seg Hseg|seg r rest segs Hseg Hr Hall Hrest Hrec IH];
    simpl; [lia|].
  rewrite !filter_app, !length_app.
  assert (filter (λ c, cls c = true) r = r) as ->.
  { clear -Hall. induction Hall as [|x r Hx _ IH]; [done|].
    by rewrite filter_cons_True, IH. }
  destruct r; [done|]. simpl. lia.
Qed.

(** For a paper whose abstract text is a string, [abstract_stats] returns
    its three numbers and they agree with one another: the distinct words
    are at most the words and none exactly when there is no word, a text
    with a word has a sentence, and there are at most as many sentences as
    terminator characters plus one. An empty abstract gives three zeros. *)
Theorem abstract_stats_consistent (p : paper) (s : string) :
  abstract_text p = PStr s →
  ∃ tw uw ts : nat,
    abstract_stats p
    = Ok (<["total_words" := PNat tw]>
         (<["unique_words" := PNat uw]>
         (<["total_sentences" := PNat ts]> ∅))) ∧
    uw ≤ tw ∧ (uw = 0 ↔ tw = 0) ∧ (0 < tw → 0 < ts) ∧
    ts ≤ S (length (filter (λ c, Chr.is_terminator c = true) (Str.chars s))) ∧
    (s = "" → tw = 0 ∧ ts = 0).
Proof.
  intros Htext. eexists _, _, _. unfold abstract_stats.
  rewrite Htext, tokenize_str. simpl. split; [reflexivity|].
  set (ws := WORD_RE_findall (Str.lower s)).
  pose proof (split_go_pieces Chr.is_terminator [] (Str.chars s)
                ltac:(constructor)) as Hsplit.
  simpl in Hsplit.
  assert (length (sentences s)
          ≤ length (Re.split_go Chr.is_terminator 0 [] (Str.chars s))) as Hle.
  { unfold sentences, Re.split_class.
    etrans; [apply length_filter|]. by rewrite length_fmap. }
  rewrite size_list_to_set_dups.
  split; [apply length_remove_dups_le|]. split; [|split; [|split]].
  - split; intros Hz.
    + apply length_zero_iff_nil in Hz. destruct ws as [|w ws']; [done|].
      assert (w ∈ remove_dups (w :: ws')) as Hw
        by (apply elem_of_remove_dups; by left).
      rewrite Hz in Hw. by apply elem_of_nil in Hw.
    + by apply length_zero_iff_nil in Hz as ->.
  - intros Hpos. destruct ws as [|w ws'] eqn:Hws; [simpl in Hpos; lia|].
    pose proof (findall_go_runs Chr.is_letter (Str.chars (Str.lower s))) as Hruns.
    rewrite <-WORD_RE_findall_chars in Hruns. fold ws in Hruns. rewrite Hws in Hruns.
    destruct (maximal_runs_elem _ _ _ (Str.chars w) Hruns) as [Hne Hall];
      [by left|].
    destruct (Str.chars w) as [|c cs]; [done|].
    apply Forall_cons in Hall as [[Hc Hin] _].
    rewrite chars_lower in Hin. apply list_elem_of_fmap in Hin as (c' & -> & Hin).
    apply lower_letter_inv, letter_plain in Hc as [Hsp Hterm].
    destruct (split_at_runs_covers _ _ _ c' Hsplit Hin Hterm) as (seg & Hseg & Hc').
    assert (Str.of_chars seg ∈ sentences s) as Hsent.
    { unfold sentences, Re.split_class. apply list_elem_of_filter. split.
      - apply strip_blank, (strip_keeps _ c'); [by rewrite chars_of_chars|done].
      - apply list_elem_of_fmap. by exists seg. }
    destruct (sentences s); [by apply elem_of_nil in Hsent|simpl; lia].
  - etrans; [exact Hle|]. by apply split_at_runs_length.
  - intros ->. by vm_compute.
Qed.

Lemma abstract_stats_consistent_witness :
  ∃ tw uw ts : nat,
    abstract_stats sample_paper
    = Ok (<["total_words" := PNat tw]>
         (<["unique_words" := PNat uw]>
         (<["total_sentences" := PNat ts]> ∅))) ∧
    uw ≤ tw.
Proof.
  destruct (abstract_stats_consistent sample_paper
              "Deep learning. Deep networks!" eq_refl)
    as (tw & uw & ts & Hst & Hle & _).
  exists tw, uw, ts. split; assumption.
Defined.

(** ** The counter and the tokenizer *)











(** ** The parts of a path *)

(** The pieces of [l] between the separators that are not empty. *)
Lemma split_char_app (c : ascii) (cur a b : list ascii) :
  Py.split_char c cur (a ++ c :: b)
  = Py.split_char c cur a ++ Py.split_char c [] b.
Proof.
  revert cur. induction a as [|x a IH]; intros cur; simpl.
  - by rewrite bool_decide_eq_true_2.
  - case_bool_decide; simpl; by rewrite IH.
Qed.

Lemma lstrip_char_split (c : ascii) (l : list ascii) :
  filter (λ w, w ≠ []) (Py.split_char c [] l)
  = filter (λ w, w ≠ []) (Py.split_char c [] (Py.lstrip_char c l)).
Proof.
  induction l as [|x l IH]; simpl; [done|].
  case_bool_decide as Hx; [|by simpl; rewrite bool_decide_eq_false_2].
  by rewrite filter_cons_False by naive_solver.
Qed.

Lemma rstrip_char_split (c : ascii) (l : list ascii) :
  filter (λ w, w ≠ []) (Py.split_char c [] l)
  = filter (λ w, w ≠ [])
      (Py.split_char c [] (reverse (Py.lstrip_char c (reverse l)))).
Proof.
  induction l as [|x l IH] using rev_ind; [done|].
  rewrite reverse_snoc. simpl. case_bool_decide as Hx.
  - subst. rewrite <-IH.
    change (l ++ [c]) with (l ++ c :: []). rewrite split_char_app, filter_app.
    simpl. rewrite filter_cons_False by naive_solver. by rewrite app_nil_r.
  - by rewrite reverse_cons, reverse_involutive.
Qed.

Lemma strip_char_split (c : ascii) (l : list ascii) :
  filter (λ w, w ≠ []) (Py.split_char c [] (Py.strip_char c l))
  = filter (λ w, w ≠ []) (Py.split_char c [] l).
Proof.
  unfold Py.strip_char. by rewrite <-rstrip_char_split, <-lstrip_char_split.
Qed.

Lemma chars_app (a b : string) : Str.chars (a +:+ b) = Str.chars a ++ Str.chars b.
Proof. induction a as [|c a IH]; simpl; [done|]. by rewrite <-IH. Qed.

Lemma filter_of_chars (ws : list (list ascii)) :
  filter (λ x : string, x ≠ "") (Str.of_chars <$> ws)
  = Str.of_chars <$> filter (λ w, w ≠ []) ws.
Proof.
  induction ws as [|w ws IH]; [done|]. rewrite fmap_cons.
  destruct w as [|c w].
  - rewrite !filter_cons_False by naive_solver. done.
  - rewrite !filter_cons_True by done. by rewrite fmap_cons, IH.
Qed.

Section Paths.
Context `{Library}.

Lemma path_parts_pieces (p : string) :
  path_parts p
  = unquote <$> (Str.of_chars <$>
      filter (λ w, w ≠ []) (Py.split_char "/" [] (Str.chars p))).
Proof.
  unfold path_parts. by rewrite filter_of_chars, strip_char_split.
Qed.

(** The parts of two paths joined by a slash are the parts of the first
    followed by the parts of the second; so a slash in front, a slash at
    the end or a doubled slash adds no part, and an empty path has none. *)
Theorem path_parts_join (a b : string) :
  path_parts (a +:+ "/" +:+ b) = path_parts a ++ path_parts b ∧
  path_parts ("/" +:+ a) = path_parts a ∧
  path_parts (a +:+ "/") = path_parts a ∧
  path_parts (a +:+ "/" +:+ "/" +:+ b) = path_parts (a +:+ "/" +:+ b) ∧
  path_parts "" = [].
Proof.
  assert (∀ a b, path_parts (a +:+ "/" +:+ b) = path_parts a ++ path_parts b)
    as Hjoin.
  { intros x y. rewrite !path_parts_pieces, !chars_app. simpl.
    by rewrite split_char_app, filter_app, !fmap_app. }
  assert (path_parts "" = []) as Hnil by (by rewrite path_parts_pieces).
  split; [apply Hjoin|]. split; [|split; [|split; [|done]]].
  - change ("/" +:+ a) with ("" +:+ "/" +:+ a). by rewrite Hjoin, Hnil.
  - pose proof (Hjoin a "") as Ha. rewrite Hnil, app_nil_r in Ha.
    by replace (a +:+ "/" +:+ "") with (a +:+ "/") in Ha.
  - rewrite !Hjoin.
    change ("/" +:+ b) with ("" +:+ "/" +:+ b). by rewrite Hjoin, Hnil.
Qed.

(** With a corpus loaded, two requests whose paths have the same two
    parts, the first being [papers], get the same answer: the detail of a
    paper is found under any spelling of the slashes. *)
Theorem detail_by_parts (D : DataStore) (t1 t2 aid : string) :
  exists_ D = true →
  path_parts (path (urlparse t1)) = ["papers"; aid] →
  path_parts (path (urlparse t2)) = ["papers"; aid] →
  handle D (Request "GET" t1) = handle D (Request "GET" t2).
Proof.
  intros HD H1 H2. rewrite !handle_GET, !do_GET_route.
  assert (∀ t, path_parts (path (urlparse t)) = ["papers"; aid] →
               route D t
               = match by_id D !! aid with
                 | Some p =>
                     if Py.truthy (PDict p)
                     then out ← detail p; Ok (Response 200 (Json out))
                     else Ok (Response 404
                                (Json (PDict (<["arxiv_id" := PStr aid]>
                                              (error_obj "unknown paper id")))))
                 | None =>
                     Ok (Response 404
                           (Json (PDict (<["arxiv_id" := PStr aid]>
                                         (error_obj "unknown paper id")))))
                 end) as Hroute.
  { intros t Ht. unfold route. rewrite HD, Ht. simpl.
    by rewrite andb_false_r. }
  by rewrite (Hroute t1), (Hroute t2).
Qed.

End Paths.

Lemma detail_by_parts_witness :
  handle (H := Ref.lib) sample_store (Request "GET" "/papers/2301.00001")
  = handle (H := Ref.lib) sample_store (Request "GET" "/papers//2301.00001/").
Proof.
  exact (detail_by_parts (H := Ref.lib) sample_store "/papers/2301.00001"
           "/papers//2301.00001/" "2301.00001" eq_refl eq_refl eq_refl).
Defined.
